(** * Shallow embedding of knex's base client (src/client.js)

    The base client is the driver-agnostic part of knex: it builds the
    connection pool (or the cluster of pools) from the configuration,
    hands connections out, runs statements through the dialect's
    primitives and reports failures.

    JavaScript values are modelled by the inductive [Val]; plain objects
    are finite maps from property names to values, so that lodash's
    [assign] is a union of maps in which the later source wins.  Promises
    are modelled by their final state, events by the list of the calls
    made to [emit]; the raw connects and disconnects, the hooks and the
    calls into the pool library are kept in a second trace. *)

From Stdlib Require Import ZArith String Ascii List Bool Lia.
From stdpp Require Import base option list gmap strings pretty.

Local Open Scope string_scope.
Local Open Scope Z_scope.

(** ** Strings *)

Module Str.

(** The double-quote character, U+0022. *)
Definition dquote : ascii := ascii_of_nat 34.

(** [s.replace(/c/g, by)] for a one-character pattern [c] and a
    replacement [by] without [$] patterns: every occurrence of [c] is
    replaced, scanning from the left. *)
Fixpoint replace_all (c : ascii) (by_ : string) (s : string) : string :=
  match s with
  | EmptyString => EmptyString
  | String a rest =>
      if Ascii.eqb a c
      then by_ ++ replace_all c by_ rest
      else String a (replace_all c by_ rest)
  end.

Definition of_char (c : ascii) : string := String c EmptyString.

Fixpoint to_list (s : string) : list ascii :=
  match s with
  | EmptyString => []
  | String a rest => a :: to_list rest
  end.

Fixpoint of_list (l : list ascii) : string :=
  match l with
  | [] => EmptyString
  | a :: rest => String a (of_list rest)
  end.

End Str.

(** ** Values *)

(** An error object: the constructor's name and the [message] property. *)
Record Error := mkError { err_name : string; message : string }.

(** [new Error(msg)] *)
Definition new_Error (msg : string) : Error := mkError "Error" msg.

(** A connection handle: the driver's resource and the [__knexUid]
    property, absent until the pool tags the handle. *)
Record Connection := mkConnection {
  raw_handle : nat;
  __knexUid : option string
}.

(** What a hook of shape [hook(connection, done)] does first: it calls
    [done], it throws, or it does neither.  What a hook does after it has
    called [done] (throw, or call [done] again) is not modelled. *)
Inductive HookOutcome :=
| HookDone (err : option Error)   (* calls [done(err)]; [None] is a falsy [err] *)
| HookThrows (e : Error)          (* throws before calling [done] *)
| HookSilent.                     (* never calls [done] *)

#[local] Unset Elimination Schemes.
Inductive Val :=
| VUndefined
| VNull
| VBool (b : bool)
| VNum (n : Z)
| VStr (s : string)
| VArr (xs : list Val)
| VObj (o : gmap string Val)
| VRaw (sql : string)                        (* a raw SQL expression, [client.raw(sql)] *)
| VHook (h : option Connection -> HookOutcome).
    (* a function [(connection, done) => ...]; [connection] may be [undefined] *)
#[local] Set Elimination Schemes.

Abbreviation Obj := (gmap string Val).

(** ToBoolean *)
Definition truthy (v : Val) : bool :=
  match v with
  | VUndefined | VNull => false
  | VBool b => b
  | VNum n => negb (n =? 0)
  | VStr s => negb (String.eqb s EmptyString)
  | _ => true
  end.

(** [o.k]: a missing property reads as [undefined]. *)
Definition get (o : Obj) (k : string) : Val := default VUndefined (o !! k).

(** lodash [assign(target, source)]: every own property of [source] is
    written onto [target]. *)
Definition assign {A} (target source : gmap string A) : gmap string A :=
  source ∪ target.

(** The truthiness of something that is an object or [undefined]. *)
Definition defined {A} (o : option A) : bool :=
  match o with
  | Some _ => true
  | None => false
  end.

(** [{}.toString.call(v)], which bluebird names [util.classString]. *)
Definition classString (v : Val) : string :=
  match v with
  | VUndefined => "[object Undefined]"
  | VNull => "[object Null]"
  | VBool _ => "[object Boolean]"
  | VNum _ => "[object Number]"
  | VStr _ => "[object String]"
  | VArr _ => "[object Array]"
  | VObj _ | VRaw _ => "[object Object]"
  | VHook _ => "[object Function]"
  end.

(** [v !== 0] *)
Definition strict_ne_zero (v : Val) : bool :=
  match v with
  | VNum 0 => false
  | _ => true
  end.

(** ** wrapIdentifier *)

Definition wrapIdentifier (value : string) : string :=
  if negb (String.eqb value "*")
  then Str.of_char Str.dquote
       ++ Str.replace_all Str.dquote (String Str.dquote (Str.of_char Str.dquote)) value
       ++ Str.of_char Str.dquote
  else "*".

(** ** Promises, events and the trace of outside calls *)

(** A promise is modelled by the state it ends in. *)
Inductive Promise (A : Type) :=
| Resolved (a : A)
| Rejected (e : Error)
| Pending.
Arguments Resolved {A} a.
Arguments Rejected {A} e.
Arguments Pending {A}.

(** An argument passed to a listener. *)
Inductive Arg :=
| ArgObj (o : Obj)
| ArgErr (e : Error)
| ArgConn (c : Connection)
| ArgDomain.                      (* [domain.active] *)

Record Event := mkEvent { ev_name : string; ev_args : list Arg }.

(** A property of the options object handed to the pool library: a value
    of the caller's pool configuration, or one of the three closures that
    [poolDefaults] builds over that configuration. *)
Inductive PoolOption :=
| OptVal (v : Val)
| OptAcquire (poolConfig : Obj)
| OptDispose (poolConfig : Obj)
| OptPing.

(** The pool library's objects, known here by what they were built from;
    what the library itself does with the options is not part of this
    file. *)
Record Pool := mkPool { pool_options : gmap string PoolOption }.
Record Cluster := mkCluster { cluster_pools : list Pool }.

(** What [Pool.prototype.acquire] is called on, and with which arguments. *)
Inductive Receiver := ThisClient | ThisPool (p : Pool) | ThisCluster (c : Cluster).
Inductive AcquireArg := ACapability (capability : Val) | ACallback.

(** The calls that the trace records: the dialect's raw connect and
    disconnect, the configured hooks, the constructors of the pool
    library, and its [acquire], [end] and [abort].  The dialect's
    [_driver], [_query] and [_stream] and the pool's [on] and [release]
    are not recorded: what they give back is part of the outcome of the
    function that calls them. *)
Inductive Call :=
| Call_acquireRawConnection (settings : Val)
| Call_destroyRawConnection (c : Connection)
| Call_afterCreate (c : Connection)
| Call_beforeDestroy (c : option Connection)
| Call_new_Pool (options : gmap string PoolOption)
| Call_new_Cluster (pools : list Pool)
| Call_Pool_acquire (this : Receiver) (args : list AcquireArg)
| Call_Cluster_acquire (this : Receiver) (args : list AcquireArg)
| Call_end (this : Receiver)
| Call_request_abort (reason : Val)
| Call_callback.                  (* the callback given to [destroy] *)

Record World := mkWorld {
  events : list Event;            (* what [emit] was called with, oldest first *)
  calls : list Call;              (* outside calls, oldest first *)
  idCounter : nat                 (* lodash's counter behind [uniqueId] *)
}.

Definition M (A : Type) : Type := World -> A * World.

#[global] Instance M_ret : MRet M := fun A a w => (a, w).
#[global] Instance M_bind : MBind M :=
  fun A B f m w => let '(a, w') := m w in f a w'.

Definition emit (name : string) (args : list Arg) : M unit :=
  fun w => (tt, mkWorld (events w ++ [mkEvent name args]) (calls w) (idCounter w)).

Definition call (c : Call) : M unit :=
  fun w => (tt, mkWorld (events w) (calls w ++ [c]) (idCounter w)).

(** lodash [uniqueId(prefix)]: [++idCounter] appended to the prefix. *)
Definition uniqueId (prefix : string) : M string :=
  fun w => let id := S (idCounter w) in
           (prefix ++ pretty id, mkWorld (events w) (calls w) id).

(** ** The dialect

    The members a dialect adds to the client's prototype. *)
Record Dialect := mkDialect {
  driverName : Val;               (* [undefined] on the base client *)
  _driver : Error + Val;          (* [this._driver()] throws or returns the driver *)
  _query : Connection -> Obj -> Promise Val * Obj;
      (* the promise the primitive returns, and the request object as the
         primitive leaves it: it receives the object itself, not a copy *)
  _stream : Connection -> Obj -> Val -> Val -> Promise Val;
  acquireRawConnection : Val -> Promise Connection
}.

(** ** query and stream *)

(** The request of [query] and [stream]: a string or an object. *)
Inductive Request :=
| ReqString (sql : string)
| ReqObject (o : Obj).

(** [if (typeof obj === 'string') obj = {sql: obj}] *)
Definition normalize (obj : Request) : Obj :=
  match obj with
  | ReqString s => {[ "sql" := VStr s ]}
  | ReqObject o => o
  end.

(** [connection.__knexUid] *)
Definition uid_of (connection : Connection) : Val :=
  match __knexUid connection with
  | Some s => VStr s
  | None => VUndefined
  end.

(** [assign({__knexUid: connection.__knexUid}, obj)] *)
Definition tagged (connection : Connection) (obj : Obj) : Obj :=
  assign {[ "__knexUid" := uid_of connection ]} obj.

Definition set_message (err : Error) (msg : string) : Error :=
  mkError (err_name err) msg.

Section Query.

(** [SqlString.format(sql, bindings)] of ./query/string, which renders a
    statement with its bindings substituted. *)
Variable SqlString_format : Val -> Val -> string.

Variable d : Dialect.

Definition query (connection : Connection) (obj : Request) : M (Promise Val) :=
  let obj := normalize obj in
  _ ← emit "query" [ArgObj (tagged connection obj)];
  (* debugQuery(obj.sql) only logs *)
  let '(p, obj) := _query d connection obj in
  match p with
  | Rejected err =>
      (* .catch((err) => { ... throw err }) *)
      let err := set_message err
                   (SqlString_format (get obj "sql") (get obj "bindings")
                    ++ " - " ++ message err) in
      _ ← emit "query-error" [ArgErr err; ArgObj (tagged connection obj)];
      mret (Rejected err)
  | p => mret p
  end.

(** The statement of a request object, rendered. *)
Definition rendered (obj : Obj) : string :=
  SqlString_format (get obj "sql") (get obj "bindings").

Definition stream (connection : Connection) (obj : Request) (stream options : Val)
  : M (Promise Val) :=
  let obj := normalize obj in
  _ ← emit "query" [ArgObj (tagged connection obj)];
  mret (_stream d connection obj stream options).

End Query.

(** ** The pool's options *)

Section Pools.

(** The global object: where an identifier that no enclosing scope
    declares is looked up; reading an unbound one throws a
    [ReferenceError]. *)
Variable globals : Obj.

Variable d : Dialect.

(** How a call of [acquire(callback)] ends. *)
Inductive AcquireRun :=
| AcquireThrows (e : Error)                 (* the call itself throws *)
| AcquireCallback (r : Error + Connection)  (* [callback(err)] or [callback(null, connection)] *)
| AcquireNoCallback.                        (* [callback] is never called *)

(** [Promise.promisify(hook)(connection)]: the promise of a node-style
    function, which rejects when the function throws or passes a truthy
    first argument to its callback. *)
Definition promisify (hook : Val) (connection : Connection) : M (Promise unit) :=
  match hook with
  | VHook h =>
      _ ← call (Call_afterCreate connection);
      match h (Some connection) with
      | HookDone None => mret (Resolved tt)
      | HookDone (Some e) => mret (Rejected e)
      | HookThrows e => mret (Rejected e)
      | HookSilent => mret Pending
      end
  | _ =>
      (* bluebird: "expecting a function but got " + util.classString(fn) *)
      mret (Rejected (mkError "TypeError"
                        ("expecting a function but got " ++ classString hook)))
  end.

(** The [acquire] closure of [poolDefaults].  The parameter of
    [poolDefaults] is spelled [coonectionSettings], so the
    [connectionSettings] read here is not that parameter: nothing in the
    module declares it and it is looked up on the global object. *)
Definition poolDefaults_acquire (poolConfig : Obj) : M AcquireRun :=
  match globals !! "connectionSettings" with
  | None =>
      mret (AcquireThrows (mkError "ReferenceError" "connectionSettings is not defined"))
  | Some connectionSettings =>
      _ ← call (Call_acquireRawConnection connectionSettings);
      match acquireRawConnection d connectionSettings with
      | Resolved connection =>
          (* .tap(function(connection) { ... }) *)
          uid ← uniqueId "__knexUid";
          let connection := mkConnection (raw_handle connection) (Some uid) in
          if truthy (get poolConfig "afterCreate") then
            hooked ← promisify (get poolConfig "afterCreate") connection;
            match hooked with
            | Resolved _ => mret (AcquireCallback (inr connection))
            | Rejected e => mret (AcquireCallback (inl e))
            | Pending => mret AcquireNoCallback
            end
          else mret (AcquireCallback (inr connection))
      | Rejected e => mret (AcquireCallback (inl e))
      | Pending => mret AcquireNoCallback
      end
  end.

(** How a call of [dispose(connection, callback)] ends. *)
Inductive DisposeRun :=
| DisposeThrows (e : Error)
| DisposeReturns.

(** [client.destroyRawConnection(connection, callback)] when
    [connection] is not [undefined]. *)
Definition destroy_if_defined (connection : option Connection) : M DisposeRun :=
  match connection with
  | Some c => _ ← call (Call_destroyRawConnection c); mret DisposeReturns
  | None => mret DisposeReturns
  end.

(** The [dispose] closure of [poolDefaults]. *)
Definition poolDefaults_dispose (poolConfig : Obj) (connection : option Connection)
  : M DisposeRun :=
  if truthy (get poolConfig "beforeDestroy") then
    match get poolConfig "beforeDestroy" with
    | VHook h =>
        _ ← call (Call_beforeDestroy connection);
        match h connection with
        | HookDone _ => destroy_if_defined connection
        | HookThrows e => mret (DisposeThrows e)
        | HookSilent => mret DisposeReturns
        end
    | _ => mret (DisposeThrows (mkError "TypeError" "poolConfig.beforeDestroy is not a function"))
    end
  else destroy_if_defined connection.

End Pools.

(** [poolDefaults(poolConfig, coonectionSettings)]: the second parameter
    is not used under that name. *)
Definition poolDefaults (poolConfig : Obj) (coonectionSettings : Obj)
  : gmap string PoolOption :=
  {[ "min" := OptVal (VNum 2);
     "max" := OptVal (VNum 10);
     "acquire" := OptAcquire poolConfig;
     "dispose" := OptDispose poolConfig;
     "ping" := OptPing ]}.

(** [initializePool(poolConfig, connectionSettings)]; [poolConfig] may be
    [undefined].  The two listeners it installs on the pool only log. *)
Definition initializePool (poolConfig : option Obj) (connectionSettings : Obj) : M Pool :=
  let options :=
    match poolConfig with
    | Some given =>
        assign (poolDefaults (default ∅ poolConfig) connectionSettings) (OptVal <$> given)
    | None => poolDefaults (default ∅ poolConfig) connectionSettings
    end in
  _ ← call (Call_new_Pool options);
  mret (mkPool options).

(** [clusterConfig.map(...)] of [initializeCluster]: [assign] writes onto
    the one [connectionSettings] object, so every pool sees the settings
    of the pools before it as well. *)
Fixpoint initializeCluster_pools (clusterConfig : list Obj) (connectionSettings : Obj)
  : M (list Pool) :=
  match clusterConfig with
  | [] => mret []
  | poolConfig :: rest =>
      let connectionSettings := assign connectionSettings poolConfig in
      p ← initializePool (Some poolConfig) connectionSettings;
      ps ← initializeCluster_pools rest connectionSettings;
      mret (p :: ps)
  end.

Definition initializeCluster (clusterConfig : list Obj) (connectionSettings : Obj)
  : M Cluster :=
  pools ← initializeCluster_pools clusterConfig connectionSettings;
  _ ← call (Call_new_Cluster pools);
  mret (mkCluster pools).

(** ** The client *)

Module Config.
Record t := mk {
  connection : option Obj;
  cluster : option (list Obj);
  pool : option Obj;
  useNullAsDefault : Val
}.
End Config.

Record Client := mkClient {
  config : Config.t;
  driver : Val;
  pool : option Pool;
  cluster : option Cluster;
  valueForUndefined : Val
}.

(** How [new Client(config)] ends. *)
Inductive Construction :=
| ProcessExit (e : Error)         (* [helpers.exit] ended the process *)
| Throws (e : Error)
| Constructed (client : Client).

(** Modelled from the spec: [helpers.exit] is defined in ./helpers, not in
    client.js; a driver that cannot be loaded is fatal and terminates the
    process with installation guidance. *)
Definition helpers_exit (e : Error) : Construction := ProcessExit e.

(** [this.initializeDriver()]: the driver, or the end of the process. *)
Definition initializeDriver (d : Dialect) : Construction + Val :=
  match _driver d with
  | inl e => inl (helpers_exit e)
  | inr driver => inr driver
  end.

(** [this.valueForUndefined]; [this.raw('DEFAULT')] is the raw expression
    [DEFAULT]. *)
Definition valueForUndefined_of (config : Config.t) : Val :=
  if truthy (Config.useNullAsDefault config) then VNull else VRaw "DEFAULT".

(** [new Client(config)], on a fresh object: it has no [pool] and no
    [cluster] yet, so [if (this.pool || this.cluster) this.destroy()]
    does nothing. *)
Definition Client_new (d : Dialect) (config : Config.t) : M Construction :=
  let connectionSettings := default ∅ (Config.connection config) in
  if truthy (driverName d)
     && (defined (Config.connection config) || defined (Config.cluster config))
  then
    match initializeDriver d with
    | inl exited => mret exited
    | inr driver =>
        if defined (Config.pool config) && defined (Config.cluster config)
        then mret (Throws (new_Error "Cannot specify both pool and cluster in config"))
        else
          pool ← match Config.pool config with
                 | Some poolConfig =>
                     if strict_ne_zero (get poolConfig "max")
                     then p ← initializePool (Some poolConfig) connectionSettings;
                          mret (Some p)
                     else mret None
                 | None => mret None
                 end;
          cluster ← match Config.cluster config with
                    | Some clusterConfig =>
                        c ← initializeCluster clusterConfig connectionSettings;
                        mret (Some c)
                    | None => mret None
                    end;
          mret (Constructed (mkClient config driver pool cluster
                               (valueForUndefined_of config)))
    end
  else
    mret (Constructed (mkClient config VUndefined None None
                         (valueForUndefined_of config))).

(** ** Acquiring and releasing *)

(** The request object that the pool library's [acquire] returns. *)
Record ResourceRequest := mkRequest { fulfilled : bool }.

(** A call of the pool library's [acquire]: the value it returns, and the
    arguments with which it calls the callback, if it ever does. *)
Record AcquireCall := mkAcquireCall {
  returned : option ResourceRequest;
  called_back : option (Error + Connection)
}.

(** The state shared by the two members of the object that
    [acquireConnection] returns: the promise [completed], and the
    variable [request] that [abort] closes over. *)
Record Acquisition := mkAcquisition {
  completed : Promise Connection;
  request : option ResourceRequest
}.

(** The value of [this.pool || this.cluster], as a receiver. *)
Definition pool_or_cluster (client : Client) : option Receiver :=
  match pool client with
  | Some p => Some (ThisPool p)
  | None => ThisCluster <$> cluster client
  end.

Section PoolLibrary.

(** The pool library: [acquire] of the pool [p], called on [this] with
    [args]. *)
Variable Pool_acquire : Pool -> Receiver -> list AcquireArg -> AcquireCall.

(** The conditional expression that selects the function to call,
      [client.cluster ? client.pool.acquire.bind(client, capability)],
    has no alternative in the source.  [acquire_otherwise] stands for
    the call of whatever is selected when the client has no cluster. *)
Variable acquire_otherwise : Client -> Val -> AcquireCall.

(** [request.abort(reason)] of the pool library, which may settle the
    request and, through the callback, the promise. *)
Variable Request_abort : Val -> Acquisition -> Acquisition.

(** Whether [end(callback)] of the pool library ever calls [callback]. *)
Variable end_calls_back : Receiver -> bool.

(** The callback of [acquireConnection]:
    [function(err, connection) { if (err) return rejecter(err); ... }] *)
Definition acquired (r : Error + Connection) : M (Promise Connection) :=
  match r with
  | inl err => mret (Rejected err)
  | inr connection =>
      _ ← emit "acquireConnection" [ArgDomain; ArgConn connection];
      (* debug(...) only logs *)
      mret (Resolved connection)
  end.

(** [request = acquire(function(err, connection) { ... })] *)
Definition run_acquire (ac : AcquireCall) : M Acquisition :=
  p ← match called_back ac with
      | Some r => acquired r
      | None => mret Pending
      end;
  mret (mkAcquisition p (returned ac)).

Definition acquireConnection (client : Client) (capability : Val) : M Acquisition :=
  if negb (defined (pool client)) && negb (defined (cluster client))
  then mret (mkAcquisition
               (Rejected (new_Error "There is no pool defined on the current client"))
               None)
  else
    match cluster client with
    | Some _ =>
        (* client.pool.acquire.bind(client, capability) *)
        match pool client with
        | None =>
            (* reading [acquire] of [undefined] throws inside the
               promise's executor *)
            mret (mkAcquisition
                    (Rejected (mkError "TypeError"
                                 "Cannot read property 'acquire' of undefined"))
                    None)
        | Some p =>
            let args := [ACapability capability; ACallback] in
            _ ← call (Call_Pool_acquire ThisClient args);
            run_acquire (Pool_acquire p ThisClient args)
        end
    | None => run_acquire (acquire_otherwise client capability)
    end.

(** [abort(reason)] of the object that [acquireConnection] returns. *)
Definition abort (reason : Val) (a : Acquisition) : M Acquisition :=
  match request a with
  | Some r =>
      if negb (fulfilled r)
      then _ ← call (Call_request_abort reason);
           mret (Request_abort reason a)
      else mret a
  | None => mret a
  end.

(** [abort] called once for each of [reasons], in order. *)
Fixpoint aborts (reasons : list Val) (a : Acquisition) : M Acquisition :=
  match reasons with
  | [] => mret a
  | reason :: rest => a' ← abort reason a; aborts rest a'
  end.

(** What [destroy(callback)] leaves: the client, the promise it built,
    and the value it returned ([undefined] when given a callback). *)
Record Destroyed := mkDestroyed {
  destroyed_client : Client;
  destroyed_promise : Promise unit;
  destroyed_returned : option (Promise unit)
}.

(** [destroy(callback)]; [callback] tells whether a function was given. *)
Definition destroy (client : Client) (callback : bool) : M Destroyed :=
  '(client, promise) ←
    match pool_or_cluster client with
    | None => mret (client, Resolved tt)
    | Some pool =>
        _ ← call (Call_end pool);
        if end_calls_back pool
        then mret (mkClient (config client) (driver client) None None
                     (valueForUndefined client), Resolved tt)
        else mret (client, Pending)
    end;
  if callback
  then
    (* promise.asCallback(callback) *)
    _ ← match promise with
        | Pending => mret tt
        | _ => call Call_callback
        end;
    mret (mkDestroyed client promise None)
  else mret (mkDestroyed client promise (Some promise)).

End PoolLibrary.


(** ** Vocabulary of the properties *)

(** Every double-quote character of a name doubled, in the words of the
    description of [wrapIdentifier]. *)
Definition double_quotes (name : list ascii) : list ascii :=
  flat_map (fun c => if Ascii.eqb c Str.dquote then [Str.dquote; Str.dquote] else [c]) name.

(** Reading a quoted body back: a pair of double quotes stands for one. *)
Fixpoint undouble (body : list ascii) : list ascii :=
  match body with
  | [] => []
  | a :: rest =>
      if Ascii.eqb a Str.dquote
      then match rest with
           | b :: rest' =>
               if Ascii.eqb b Str.dquote then a :: undouble rest' else a :: undouble rest
           | [] => [a]
           end
      else a :: undouble rest
  end.

(** There is a request and the pool library has not fulfilled it. *)
Definition pending (a : Acquisition) : bool :=
  match request a with
  | Some r => negb (fulfilled r)
  | None => false
  end.

(** The handle as the pool's [acquire] tags it. *)
Definition tagged_handle (raw : Connection) (w : World) : Connection :=
  mkConnection (raw_handle raw) (Some ("__knexUid" ++ pretty (S (idCounter w)))).

Definition with_events (w : World) (es : list Event) : World :=
  mkWorld (events w ++ es) (calls w) (idCounter w).

Definition with_calls (w : World) (cs : list Call) : World :=
  mkWorld (events w) (calls w ++ cs) (idCounter w).

(** The event emitted before a statement is handed to the dialect. *)
Definition query_event (connection : Connection) (obj : Obj) : Event :=
  mkEvent "query" [ArgObj (tagged connection obj)].


(** ** Sample inputs *)

(** How a binding is displayed inside a rendered statement. *)
Definition display (v : Val) : string :=
  match v with
  | VNum n => pretty n
  | VStr s => "'" ++ s ++ "'"
  | VBool true => "true"
  | VBool false => "false"
  | _ => "NULL"
  end.

Fixpoint substitute (sql : string) (values : list Val) : string :=
  match sql with
  | EmptyString => EmptyString
  | String c rest =>
      if Ascii.eqb c "?"
      then match values with
           | v :: values' => display v ++ substitute rest values'
           | [] => String c (substitute rest [])
           end
      else String c (substitute rest values)
  end.

(** Modelled from the spec: [SqlString.format] is defined in
    ./query/string, not in client.js; it gives the SQL with the bindings
    substituted for display, so that [SELECT ? AS x] with the binding 1
    reads [SELECT 1 AS x]. *)
Definition format_positional (sql bindings : Val) : string :=
  match sql with
  | VStr s =>
      substitute s match bindings with
                   | VArr values => values
                   | VUndefined | VNull => []
                   | v => [v]
                   end
  | _ => EmptyString
  end.

Definition fresh_world : World := mkWorld [] [] 0.

Definition sample_connection : Connection := mkConnection 7 (Some "__knexUid1").

Definition select_x : Obj := {[ "sql" := VStr "SELECT ? AS x"; "bindings" := VArr [VNum 1] ]}.

(** A dialect with a driver; statements fail with [boom]. *)
Definition failing_dialect : Dialect :=
  mkDialect (VStr "pg") (inr (VStr "driver"))
    (fun _ obj => (Rejected (new_Error "boom"), obj))
    (fun _ _ _ _ => Rejected (new_Error "boom"))
    (fun _ => Resolved (mkConnection 7 None)).

(** The base client: no driver name. *)
Definition base_client : Dialect :=
  mkDialect VUndefined (inl (new_Error "no driver"))
    (fun _ obj => (Pending, obj))
    (fun _ _ _ _ => Pending)
    (fun _ => Pending).

Definition endpoint : Obj := {[ "host" := VStr "db.local" ]}.

(** [{connection: {...}, pool: {max: 5}}] *)
Definition pooled_config : Config.t :=
  Config.mk (Some endpoint) None (Some {[ "max" := VNum 5 ]}) VUndefined.

(** [{connection: {...}}]: no [pool] property. *)
Definition plain_config : Config.t :=
  Config.mk (Some endpoint) None None VUndefined.

(** [{pool: {}, cluster: []}] *)
Definition pool_and_cluster_config : Config.t :=
  Config.mk None (Some []) (Some ∅) VUndefined.

(** [{cluster: [{...}, {...}]}] *)
Definition cluster_config : Config.t :=
  Config.mk None (Some [endpoint; endpoint]) None VUndefined.

(** A pool library whose [end] calls back, whose [acquire] hands out
    [sample_connection], and whose [abort] settles the request with an
    error, as pool2 does. *)
Definition sample_end : Receiver -> bool := fun _ => true.

Definition sample_acquire : AcquireCall :=
  mkAcquireCall (Some (mkRequest true)) (Some (inr sample_connection)).

Definition sample_abort (reason : Val) (a : Acquisition) : Acquisition :=
  mkAcquisition
    match completed a with
    | Pending => Rejected (new_Error "ResourceRequest aborted")
    | settled => settled
    end
    (Some (mkRequest true)).

(** A client with a pool, as a dialect with a driver builds it. *)
Definition pooled_client : Client :=
  mkClient pooled_config (VStr "driver")
    (Some (mkPool (assign (poolDefaults {[ "max" := VNum 5 ]} endpoint)
                     (OptVal <$> ({[ "max" := VNum 5 ]} : Obj)))))
    None (VRaw "DEFAULT").

(** A request still waiting for a connection. *)
Definition waiting : Acquisition := mkAcquisition Pending (Some (mkRequest false)).

(** A request that has been given [sample_connection]. *)
Definition served : Acquisition :=
  mkAcquisition (Resolved sample_connection) (Some (mkRequest true)).

(** A global object that binds [connectionSettings]. *)
Definition sample_globals : Obj := {[ "connectionSettings" := VObj endpoint ]}.

(** [{afterCreate: (connection, done) => done(new Error('not ready'))}] *)
Definition failing_hook_config : Obj :=
  {[ "afterCreate" := VHook (fun _ => HookDone (Some (new_Error "not ready"))) ]}.

(** ** Releasing a connection *)

(** What [releaseConnection] leaves: its promise, and the pool or cluster
    whose [release] it called, if it got that far. *)
Record Released := mkReleased {
  released_promise : Promise unit;
  released_on : option Receiver
}.

Section Release.

(** [release(connection)] of the pool library, by what it throws, if it
    throws. *)
Variable Pool_release : Receiver -> Connection -> option Error.

(** [releaseConnection(connection)]: the event is emitted before the
    promise is built; what its executor throws rejects the promise. *)
Definition releaseConnection (client : Client) (connection : Connection) : M Released :=
  let pool := pool_or_cluster client in
  _ ← emit "releaseConnection" [ArgDomain; ArgConn connection];
  match pool with
  | Some pool =>
      (* debug(...) only logs *)
      match Pool_release pool connection with
      | Some e => mret (mkReleased (Rejected e) (Some pool))
      | None => mret (mkReleased (Resolved tt) (Some pool))
      end
  | None =>
      mret (mkReleased
              (Rejected (mkError "TypeError" "Cannot read property 'release' of undefined"))
              None)
  end.

End Release.

(** ** More vocabulary *)

(** Reading a quoted identifier back: [*] stands for itself; otherwise
    the first and the last character go and the pairs of double quotes
    between them are read as one. *)
Definition unwrapIdentifier (quoted : string) : string :=
  if String.eqb quoted "*" then "*"
  else match Str.to_list quoted with
       | _ :: rest => Str.of_list (undouble (removelast rest))
       | [] => EmptyString
       end.

(** How many double quotes a name holds. *)
Definition quotes_in (name : string) : nat :=
  count_occ ascii_dec (Str.to_list name) Str.dquote.

(** The outside calls made between two states of the world. *)
Definition new_calls (before after : World) : list Call :=
  drop (length (calls before)) (calls after).

(** The events emitted between two states of the world. *)
Definition new_events (before after : World) : list Event :=
  drop (length (events before)) (events after).

(** ** More sample inputs *)

(** A dialect that writes numbered placeholders into the request before
    the statement fails. *)
Definition rewriting_dialect : Dialect :=
  mkDialect (VStr "pg") (inr (VStr "driver"))
    (fun _ obj => (Rejected (new_Error "boom"), <[ "sql" := VStr "SELECT $1 AS x" ]> obj))
    (fun _ _ _ _ => Pending)
    (fun _ => Resolved (mkConnection 7 None)).

(** A dialect whose server cannot be reached. *)
Definition unreachable_dialect : Dialect :=
  mkDialect (VStr "pg") (inr (VStr "driver"))
    (fun _ obj => (Pending, obj))
    (fun _ _ _ _ => Pending)
    (fun _ => Rejected (new_Error "ECONNREFUSED")).

(** [{sql: 'select 1', __knexUid: 'mine'}] *)
Definition self_tagged : Obj := {[ "sql" := VStr "select 1"; "__knexUid" := VStr "mine" ]}.

(** [{afterCreate: (connection, done) => {}}]: [done] is never called. *)
Definition silent_hook_config : Obj := {[ "afterCreate" := VHook (fun _ => HookSilent) ]}.

(** [{afterCreate: 'yes'}] *)
Definition string_hook_config : Obj := {[ "afterCreate" := VStr "yes" ]}.

(** [{beforeDestroy: (connection, done) => done(new Error('busy'))}] *)
Definition complaining_destroy_config : Obj :=
  {[ "beforeDestroy" := VHook (fun _ => HookDone (Some (new_Error "busy"))) ]}.

(** The pool that [initializePool] builds for a pool configuration. *)
Definition pool_for (poolConfig : Obj) : Pool :=
  mkPool (assign (poolDefaults poolConfig ∅) (OptVal <$> poolConfig)).

(** What a construction leaves behind, the stored configuration apart. *)
Definition built (made : Construction) : Error + Error + (Val * option Pool * option Cluster) :=
  match made with
  | ProcessExit e => inl (inl e)
  | Throws e => inl (inr e)
  | Constructed client => inr (driver client, pool client, cluster client)
  end.

(** [{pool: {max: 5}}]: neither connection settings nor a cluster. *)
Definition pool_only_config : Config.t :=
  Config.mk None None (Some {[ "max" := VNum 5 ]}) VUndefined.

(** A client with a cluster of two pools and no pool of its own. *)
Definition cluster_client : Client :=
  mkClient cluster_config (VStr "driver") None
    (Some (mkCluster [pool_for endpoint; pool_for endpoint])) (VRaw "DEFAULT").

(** A pool library whose [end] never calls back. *)
Definition stuck_end : Receiver -> bool := fun _ => false.

(** A pool library whose [release] returns. *)
Definition sample_release : Receiver -> Connection -> option Error := fun _ _ => None.
(** * Properties *)

(** Unfolds the state-passing combinators. *)
Ltac run := unfold mbind, M_bind, mret, M_ret, emit, call in *; cbn [fst snd] in *.

(** ** Identifier quoting *)


Lemma to_list_app (s t : string) :
  Str.to_list (s ++ t) = (Str.to_list s ++ Str.to_list t)%list.
Proof. induction s as [|a s IH]; simpl; [reflexivity | now rewrite IH]. Qed.

Lemma of_list_to_list (s : string) : Str.of_list (Str.to_list s) = s.
Proof. induction s as [|a s IH]; simpl; [reflexivity | now rewrite IH]. Qed.

(** The regular-expression replacement of the source doubles the quotes. *)
Lemma replace_all_doubles (s : string) :
  Str.to_list (Str.replace_all Str.dquote (String Str.dquote (Str.of_char Str.dquote)) s)
  = double_quotes (Str.to_list s).
Proof.
  induction s as [|a s IH]; [reflexivity|].
  cbn [Str.replace_all Str.to_list double_quotes flat_map].
  destruct (Ascii.eqb a Str.dquote).
  - rewrite to_list_app, IH. reflexivity.
  - cbn [Str.to_list]. rewrite IH. reflexivity.
Qed.

Lemma undouble_double_quotes (name : list ascii) :
  undouble (double_quotes name) = name.
Proof.
  induction name as [|c name IH]; [reflexivity|].
  unfold double_quotes in *. cbn [flat_map].
  destruct (Ascii.eqb c Str.dquote) eqn:Hc.
  - apply Ascii.eqb_eq in Hc. subst c.
    cbn [app undouble]. rewrite Ascii.eqb_refl. now rewrite IH.
  - cbn [app undouble]. rewrite Hc. now rewrite IH.
Qed.

Lemma wrapIdentifier_quoted (name : string) :
  name <> "*" ->
  Str.to_list (wrapIdentifier name)
  = (Str.dquote :: double_quotes (Str.to_list name) ++ [Str.dquote])%list.
Proof.
  intros Hne. unfold wrapIdentifier.
  apply String.eqb_neq in Hne. rewrite Hne. cbn [negb].
  rewrite !to_list_app, replace_all_doubles. reflexivity.
Qed.

(** C9. [wrapIdentifier] returns [*] for the name [*]; any other name
    comes back between two double quotes, with every double quote of the
    name doubled.  So the three characters a, double quote, b become the
    six characters double quote, a, double quote, double quote, b,
    double quote. *)
Theorem wrapIdentifier_doubles_quotes :
  (forall name : string,
     wrapIdentifier name =
       if String.eqb name "*" then "*"
       else Str.of_list
              (Str.dquote :: double_quotes (Str.to_list name) ++ [Str.dquote]))
  /\ wrapIdentifier (Str.of_list ["a"; Str.dquote; "b"]%char)
     = Str.of_list ["034"; "a"; "034"; "034"; "b"; "034"]%char
  /\ wrapIdentifier "*" = "*".
Proof.
  split; [|split; reflexivity].
  intros name. destruct (String.eqb name "*") eqn:Hname.
  - apply String.eqb_eq in Hname. now subst name.
  - apply String.eqb_neq in Hname.
    rewrite <- wrapIdentifier_quoted by assumption.
    now rewrite of_list_to_list.
Qed.

(** The name can be read back from the quoted form. *)
Lemma wrapIdentifier_reversible (name : string) :
  name <> "*" ->
  exists body,
    Str.to_list (wrapIdentifier name) = (Str.dquote :: body ++ [Str.dquote])%list
    /\ Str.of_list (undouble body) = name.
Proof.
  intros Hne. exists (double_quotes (Str.to_list name)). split.
  - now apply wrapIdentifier_quoted.
  - rewrite undouble_double_quotes. apply of_list_to_list.
Qed.

(** ** Running statements *)



(** A statement made of [sql] and [bindings] has no [__knexUid]. *)
Lemma statement_has_no_uid (o : Obj) :
  dom o ⊆ ({[ "sql"; "bindings" ]} : gset string) -> o !! "__knexUid" = None.
Proof.
  intros Hdom. apply not_elem_of_dom. intros Hin. apply Hdom in Hin.
  apply elem_of_union in Hin as [Hin|Hin]; apply elem_of_singleton in Hin; discriminate.
Qed.


Lemma tagged_other (connection : Connection) (obj : Obj) (k : string) :
  k <> "__knexUid" -> tagged connection obj !! k = obj !! k.
Proof.
  intros Hk. unfold tagged, assign.
  rewrite lookup_union, lookup_singleton_ne by congruence.
  now destruct (obj !! k).
Qed.

(** The tagged object, written out: an object without a [__knexUid] gets
    the connection's; an object that has one is passed as it is. *)
Lemma tagged_untagged (connection : Connection) (obj : Obj) :
  obj !! "__knexUid" = None ->
  tagged connection obj
  = <[ "__knexUid" := match __knexUid connection with
                      | Some uid => VStr uid
                      | None => VUndefined
                      end ]> obj.
Proof.
  intros Hnone. unfold tagged, assign, uid_of.
  symmetry. now apply insert_union_singleton_r.
Qed.

Lemma tagged_self_tagged (connection : Connection) (obj : Obj) (own : Val) :
  obj !! "__knexUid" = Some own -> tagged connection obj = obj.
Proof.
  intros Hown. unfold tagged, assign. apply map_eq. intros k.
  rewrite lookup_union. destruct (decide (k = "__knexUid")) as [->|Hk].
  - now rewrite Hown, lookup_singleton_eq.
  - rewrite lookup_singleton_ne by congruence. now destruct (obj !! k).
Qed.

Lemma normalize_written_out (req : Request) :
  normalize req
  = match req with
    | ReqString sql => {[ "sql" := VStr sql ]}
    | ReqObject o => o
    end.
Proof. now destruct req. Qed.

Section QueryProperties.

Variable SqlString_format : Val -> Val -> string.
Variable d : Dialect.


(** What [query] does with a rejection, whatever the primitive did to
    the request object. *)
Lemma query_rejected connection req w e obj' :
  _query d connection (normalize req) = (Rejected e, obj') ->
  let err := mkError (err_name e) (rendered SqlString_format obj' ++ " - " ++ message e) in
  query SqlString_format d connection req w
  = (Rejected err,
     with_events w [query_event connection (normalize req);
                    mkEvent "query-error" [ArgErr err; ArgObj (tagged connection obj')]]).
Proof.
  intros Hq. unfold query. run. rewrite Hq. cbn.
  unfold with_events, query_event, set_message, rendered. cbn.
  now rewrite <- app_assoc.
Qed.

Lemma query_not_rejected connection req w p obj' :
  _query d connection (normalize req) = (p, obj') ->
  (forall e, p <> Rejected e) ->
  query SqlString_format d connection req w
  = (p, with_events w [query_event connection (normalize req)]).
Proof.
  intros Hq Hp. unfold query. run. rewrite Hq. cbn.
  destruct p as [v|e|]; try reflexivity. now destruct (Hp e).
Qed.


(** C8, as the code has it.  [stream] normalizes the request as [query]
    does, a string standing for the object with that [sql], and emits the
    same [query] event, the first that [query] emits: the request with the
    [__knexUid] of the connection, unless the request has a [__knexUid] of
    its own, which it keeps.  [stream] returns the promise of the dialect's
    streaming primitive as it is: when that rejects with [e], so does
    [stream], with [e] as it was, and the one event it has emitted is
    [query]: there is no [query-error]. *)
Theorem stream_surfaces_errors_unmodified
    (connection : Connection) (req : Request) (sink options : Val) (w : World) :
  let obj : Obj := match req with
                   | ReqString sql => {[ "sql" := VStr sql ]}
                   | ReqObject o => o
                   end in
  let tag := match __knexUid connection with
             | Some uid => VStr uid
             | None => VUndefined
             end in
  let payload := match obj !! "__knexUid" with
                 | Some _ => obj
                 | None => <[ "__knexUid" := tag ]> obj
                 end in
  stream d connection req sink options w
  = (_stream d connection obj sink options,
     mkWorld (events w ++ [mkEvent "query" [ArgObj payload]]) (calls w) (idCounter w))
  /\ (exists later,
        events (query SqlString_format d connection req w).2
        = (events w ++ mkEvent "query" [ArgObj payload] :: later)%list)
  /\ (forall e,
        _stream d connection obj sink options = Rejected e ->
        (stream d connection req sink options w).1 = Rejected e
        /\ forall ev,
             ev ∈ events (stream d connection req sink options w).2 ->
             ev ∈ events w \/ ev = mkEvent "query" [ArgObj payload]).
Proof.
  intros obj tag payload.
  assert (Hpayload : tagged connection (normalize req) = payload).
  { subst payload tag obj. rewrite <- normalize_written_out.
    destruct (normalize req !! "__knexUid") as [own|] eqn:Hown.
    - now apply (tagged_self_tagged connection _ own).
    - now apply tagged_untagged. }
  assert (Hstream :
    stream d connection req sink options w
    = (_stream d connection obj sink options,
       mkWorld (events w ++ [mkEvent "query" [ArgObj payload]]) (calls w) (idCounter w))).
  { subst obj. rewrite <- normalize_written_out, <- Hpayload. reflexivity. }
  split; [exact Hstream|]. split.
  - rewrite <- Hpayload.
    destruct (_query d connection (normalize req)) as [p left] eqn:Hq.
    destruct p as [v|e|].
    + exists []. now rewrite (query_not_rejected connection req w (Resolved v) left).
    + eexists. rewrite (query_rejected connection req w e left Hq). reflexivity.
    + exists []. now rewrite (query_not_rejected connection req w Pending left).
  - intros e He. rewrite Hstream. cbn [fst snd events]. split; [exact He|].
    intros ev [Hin|Hin]%elem_of_app; [now left|].
    right. now apply list_elem_of_singleton in Hin.
Qed.

End QueryProperties.



Lemma stream_surfaces_errors_unmodified_witness :
  _stream failing_dialect sample_connection {[ "sql" := VStr "SELECT 1" ]}
    VUndefined VUndefined
  = Rejected (new_Error "boom")
  /\ (stream failing_dialect sample_connection (ReqString "SELECT 1") VUndefined VUndefined
        fresh_world).1
     = Rejected (new_Error "boom")
  /\ stream failing_dialect sample_connection (ReqString "SELECT 1") VUndefined VUndefined
       fresh_world
     = (Rejected (new_Error "boom"),
        mkWorld
          [mkEvent "query"
             [ArgObj {[ "sql" := VStr "SELECT 1"; "__knexUid" := VStr "__knexUid1" ]}]]
          [] 0).
Proof.
  pose proof (stream_surfaces_errors_unmodified format_positional failing_dialect
                sample_connection (ReqString "SELECT 1") VUndefined VUndefined
                fresh_world) as (Hrun & _ & Hfails).
  split; [reflexivity|]. split.
  - exact (proj1 (Hfails (new_Error "boom") eq_refl)).
  - exact Hrun.
Defined.

(** C8 fails for a request that carries a [__knexUid] of its own: the
    event that [stream] emits has the request's [mine], not the
    [__knexUid1] of the connection. *)
Lemma stream_keeps_the_requests_own_uid :
  __knexUid sample_connection = Some "__knexUid1"
  /\ events (stream failing_dialect sample_connection (ReqObject self_tagged)
               VUndefined VUndefined fresh_world).2
     = [mkEvent "query" [ArgObj self_tagged]]
  /\ self_tagged !! "__knexUid" = Some (VStr "mine")
  /\ VStr "mine" <> VStr "__knexUid1".
Proof. repeat split. discriminate. Qed.

(** ** Building the pool *)

Lemma initializePool_run (poolConfig : option Obj) (cs : Obj) (w : World) :
  exists options,
    initializePool poolConfig cs w = (mkPool options, with_calls w [Call_new_Pool options])
    /\ forall k,
         options !! k
         = match default ∅ poolConfig !! k with
           | Some v => Some (OptVal v)
           | None => poolDefaults (default ∅ poolConfig) cs !! k
           end.
Proof.
  unfold initializePool. run. eexists. split; [reflexivity|].
  intros k. destruct poolConfig as [given|]; unfold default; cbn [from_option id].
  - unfold assign. destruct (given !! k) as [v|] eqn:Hk.
    + apply lookup_union_Some_l. now rewrite lookup_fmap, Hk.
    + apply lookup_union_r. now rewrite lookup_fmap, Hk.
  - now rewrite lookup_empty.
Qed.

(** C10. The pool is created with the options of [poolDefaults]
    overridden, property by property, by those of the pool configuration:
    without a [min] of its own the pool gets [min = 2], without a [max] of
    its own [max = 10], and a property that the configuration has goes to
    the pool as given. *)
Theorem initializePool_default_sizing (poolConfig : option Obj) (cs : Obj) (w : World) :
  let given := default ∅ poolConfig in
  let created := (initializePool poolConfig cs w).1 in
  (given !! "min" = None -> pool_options created !! "min" = Some (OptVal (VNum 2)))
  /\ (given !! "max" = None -> pool_options created !! "max" = Some (OptVal (VNum 10)))
  /\ (forall k v, given !! k = Some v -> pool_options created !! k = Some (OptVal v))
  /\ calls (initializePool poolConfig cs w).2
     = (calls w ++ [Call_new_Pool (pool_options created)])%list.
Proof.
  intros given created. subst given created.
  destruct (initializePool_run poolConfig cs w) as (options & Hrun & Hoptions).
  rewrite Hrun. cbn [fst snd pool_options with_calls calls].
  repeat split.
  - intros Hmin. now rewrite Hoptions, Hmin.
  - intros Hmax. now rewrite Hoptions, Hmax.
  - intros k v Hk. now rewrite Hoptions, Hk.
Qed.

Lemma initializePool_default_sizing_witness :
  ({[ "max" := VNum 5 ]} : Obj) !! "min" = None
  /\ pool_options (initializePool (Some {[ "max" := VNum 5 ]}) endpoint fresh_world).1 !! "min"
     = Some (OptVal (VNum 2))
  /\ pool_options (initializePool (Some {[ "max" := VNum 5 ]}) endpoint fresh_world).1 !! "max"
     = Some (OptVal (VNum 5)).
Proof.
  pose proof (initializePool_default_sizing (Some {[ "max" := VNum 5 ]}) endpoint fresh_world)
    as (Hmin & _ & Hgiven & _).
  split; [reflexivity|]. split.
  - apply Hmin. reflexivity.
  - apply Hgiven. reflexivity.
Defined.

(** ** Constructing a client *)

Lemma strict_ne_zero_false (v : Val) : strict_ne_zero v = false <-> v = VNum 0.
Proof.
  split; [|now intros ->].
  destruct v as [| |b|n|s|xs|o|sql|h]; try discriminate.
  destruct n; now try discriminate.
Qed.

(** Without a driver name nothing is initialized, whatever the
    configuration holds. *)
Lemma Client_new_without_driver (d : Dialect) (config : Config.t) (w : World) :
  truthy (driverName d) = false ->
  Client_new d config w
  = (Constructed (mkClient config VUndefined None None (valueForUndefined_of config)), w).
Proof. intros Hname. unfold Client_new. now rewrite Hname. Qed.

(** C3, as the code has it.  On a client whose dialect names a driver
    and whose driver loads, a configuration with both [pool] and [cluster]
    makes the constructor throw its configuration error, before any pool
    or cluster is created. *)
Theorem Client_new_rejects_pool_and_cluster
    (d : Dialect) (config : Config.t) (w : World)
    (driver : Val) (poolConfig : Obj) (clusterConfig : list Obj) :
  truthy (driverName d) = true ->
  _driver d = inr driver ->
  Config.pool config = Some poolConfig ->
  Config.cluster config = Some clusterConfig ->
  Client_new d config w
  = (Throws (new_Error "Cannot specify both pool and cluster in config"), w).
Proof.
  intros Hname Hdriver Hpool Hcluster. unfold Client_new, initializeDriver.
  rewrite Hname, Hdriver, Hpool, Hcluster. cbn [defined andb orb].
  now rewrite orb_true_r.
Qed.

Lemma Client_new_rejects_pool_and_cluster_witness :
  truthy (driverName failing_dialect) = true
  /\ Client_new failing_dialect pool_and_cluster_config fresh_world
     = (Throws (new_Error "Cannot specify both pool and cluster in config"), fresh_world).
Proof.
  split; [reflexivity|].
  exact (Client_new_rejects_pool_and_cluster failing_dialect pool_and_cluster_config
           fresh_world (VStr "driver") ∅ [] eq_refl eq_refl eq_refl eq_refl).
Defined.

(** C3 fails on the base client, which has no driver name: the
    constructor returns a client for a configuration with both [pool] and
    [cluster]. *)
Lemma Client_new_base_accepts_pool_and_cluster :
  defined (Config.pool pool_and_cluster_config) = true
  /\ defined (Config.cluster pool_and_cluster_config) = true
  /\ Client_new base_client pool_and_cluster_config fresh_world
     = (Constructed (mkClient pool_and_cluster_config VUndefined None None (VRaw "DEFAULT")),
        fresh_world).
Proof. repeat split. Qed.

(** C4, as the code has it.  On a client whose dialect names a driver
    and whose driver loads, a configuration with connection settings, a
    [pool] object and no cluster gives a client without a pool when
    [pool.max] is the number 0, and otherwise a client with the pool that
    [initializePool] builds from [pool] and the connection settings. *)
Theorem Client_new_builds_pool
    (d : Dialect) (config : Config.t) (w : World)
    (driver : Val) (settings poolConfig : Obj) :
  truthy (driverName d) = true ->
  _driver d = inr driver ->
  Config.connection config = Some settings ->
  Config.cluster config = None ->
  Config.pool config = Some poolConfig ->
  (get poolConfig "max" = VNum 0 ->
     exists client,
       Client_new d config w = (Constructed client, w)
       /\ pool client = None /\ cluster client = None)
  /\ (get poolConfig "max" <> VNum 0 ->
        exists client p,
          Client_new d config w
          = (Constructed client, with_calls w [Call_new_Pool (pool_options p)])
          /\ pool client = Some p /\ cluster client = None
          /\ p = (initializePool (Some poolConfig) settings w).1).
Proof.
  intros Hname Hdriver Hconn Hcluster Hpool. unfold Client_new, initializeDriver.
  rewrite Hname, Hdriver, Hconn, Hcluster, Hpool. cbn [defined andb orb].
  unfold default. cbn [from_option id].
  split; intros Hmax.
  - rewrite Hmax. cbn [strict_ne_zero]. run. eexists. repeat split.
  - destruct (strict_ne_zero (get poolConfig "max")) eqn:Hne.
    + destruct (initializePool_run (Some poolConfig) settings w) as (options & Hrun & _).
      run. rewrite Hrun.
      exists (mkClient config driver (Some (mkPool options)) None (valueForUndefined_of config)).
      exists (mkPool options). repeat split.
    + now apply strict_ne_zero_false in Hne.
Qed.

Lemma Client_new_builds_pool_witness :
  get ({[ "max" := VNum 5 ]} : Obj) "max" <> VNum 0
  /\ exists client p,
       Client_new failing_dialect pooled_config fresh_world
       = (Constructed client, with_calls fresh_world [Call_new_Pool (pool_options p)])
       /\ pool client = Some p /\ cluster client = None
       /\ p = (initializePool (Some {[ "max" := VNum 5 ]}) endpoint fresh_world).1.
Proof.
  assert (Hmax : get ({[ "max" := VNum 5 ]} : Obj) "max" <> VNum 0) by (vm_compute; discriminate).
  split; [exact Hmax|].
  exact (proj2 (Client_new_builds_pool failing_dialect pooled_config fresh_world
                  (VStr "driver") endpoint {[ "max" := VNum 5 ]}
                  eq_refl eq_refl eq_refl eq_refl eq_refl) Hmax).
Defined.

(** C4 fails in two ways: the base client, which has no driver name,
    builds no pool from a configuration with connection settings and a
    [pool] object; and a client with a driver builds none from a
    configuration that has connection settings and no [pool]. *)
Lemma Client_new_builds_no_pool :
  (defined (Config.connection pooled_config) = true
   /\ Config.cluster pooled_config = None
   /\ Config.pool pooled_config = Some {[ "max" := VNum 5 ]}
   /\ Client_new base_client pooled_config fresh_world
      = (Constructed (mkClient pooled_config VUndefined None None (VRaw "DEFAULT")),
         fresh_world))
  /\ (defined (Config.connection plain_config) = true
      /\ Config.cluster plain_config = None
      /\ Config.pool plain_config = None
      /\ Client_new failing_dialect plain_config fresh_world
         = (Constructed (mkClient plain_config (VStr "driver") None None (VRaw "DEFAULT")),
            fresh_world)).
Proof. repeat split. Qed.

(** Without a [pool] in the configuration no pool is built, whatever the
    dialect. *)
Lemma Client_new_pool_omitted (d : Dialect) (config : Config.t) (w : World) (client : Client) (w' : World) :
  Config.pool config = None ->
  Client_new d config w = (Constructed client, w') ->
  pool client = None.
Proof.
  intros Hpool. unfold Client_new, initializeDriver. rewrite Hpool.
  destruct (truthy (driverName d) && _); [|now intros [= <- _]].
  destruct (_driver d) as [e|driver]; [discriminate|].
  cbn [defined andb]. run.
  destruct (Config.cluster config) as [clusterConfig|].
  - destruct (initializeCluster clusterConfig _ w) as [c w1]. now intros [= <- _].
  - now intros [= <- _].
Qed.

(** ** Acquiring a connection *)

Section AcquireProperties.

Variable Pool_acquire : Pool -> Receiver -> list AcquireArg -> AcquireCall.
Variable acquire_otherwise : Client -> Val -> AcquireCall.

Lemma acquireConnection_no_pool (client : Client) (capability : Val) (w : World) :
  pool client = None -> cluster client = None ->
  acquireConnection Pool_acquire acquire_otherwise client capability w
  = (mkAcquisition
       (Rejected (new_Error "There is no pool defined on the current client")) None,
     w).
Proof. intros Hpool Hcluster. unfold acquireConnection. now rewrite Hpool, Hcluster. Qed.

(** With a cluster and no pool, the function to call is read from the
    absent pool. *)
Lemma acquireConnection_cluster_only
    (client : Client) (capability : Val) (w : World) (c : Cluster) :
  cluster client = Some c -> pool client = None ->
  acquireConnection Pool_acquire acquire_otherwise client capability w
  = (mkAcquisition
       (Rejected (mkError "TypeError" "Cannot read property 'acquire' of undefined")) None,
     w).
Proof. intros Hcluster Hpool. unfold acquireConnection. now rewrite Hpool, Hcluster. Qed.

(** With a cluster and a pool, the pool's [acquire] is called on the
    client itself, with the capability in the place of the callback. *)
Lemma acquireConnection_cluster_and_pool
    (client : Client) (capability : Val) (w : World) (c : Cluster) (p : Pool) :
  cluster client = Some c -> pool client = Some p ->
  let args := [ACapability capability; ACallback] in
  acquireConnection Pool_acquire acquire_otherwise client capability w
  = run_acquire (Pool_acquire p ThisClient args)
      (with_calls w [Call_Pool_acquire ThisClient args]).
Proof. intros Hcluster Hpool. unfold acquireConnection. now rewrite Hpool, Hcluster. Qed.

(** Whatever the client holds, the cluster's [acquire] is not called. *)
Lemma acquireConnection_never_calls_cluster
    (client : Client) (capability : Val) (w : World) (this : Receiver) (args : list AcquireArg) :
  Call_Cluster_acquire this args ∈ calls (acquireConnection Pool_acquire acquire_otherwise
                                            client capability w).2 ->
  Call_Cluster_acquire this args ∈ calls w.
Proof.
  unfold acquireConnection, run_acquire, acquired. run.
  destruct (negb _ && negb _); [easy|].
  destruct (cluster client) as [c|].
  - destruct (pool client) as [p|]; [|easy].
    destruct (called_back _) as [[e|connection]|]; cbn;
      (intros [Hin|Hin]%elem_of_app; [assumption|]);
      apply list_elem_of_singleton in Hin; discriminate.
  - destruct (called_back _) as [[e|connection]|]; now cbn.
Qed.

(** C6, on the code.  The client that a dialect with a driver builds
    from a configuration with a cluster of two endpoints has a cluster
    and no pool; its [acquireConnection] rejects with a [TypeError] and
    leaves the trace of outside calls as it was: the cluster's [acquire]
    is not called and no connection is handed out. *)
Theorem acquireConnection_cluster_client_rejects (capability : Val) :
  exists client w,
    Client_new failing_dialect cluster_config fresh_world = (Constructed client, w)
    /\ defined (cluster client) = true
    /\ pool client = None
    /\ acquireConnection Pool_acquire acquire_otherwise client capability w
       = (mkAcquisition
            (Rejected (mkError "TypeError" "Cannot read property 'acquire' of undefined"))
            None,
          w).
Proof.
  destruct (Client_new failing_dialect cluster_config fresh_world) as [made w] eqn:Hnew.
  vm_compute in Hnew. injection Hnew as <- <-.
  do 2 eexists. repeat split.
Qed.

End AcquireProperties.

(** ** Destroying the pool *)

Lemma pool_or_cluster_None (client : Client) :
  pool_or_cluster client = None <-> pool client = None /\ cluster client = None.
Proof.
  unfold pool_or_cluster. destruct (pool client), (cluster client); cbn; split; try easy.
  all: intros [? ?]; discriminate.
Qed.

Section DestroyProperties.

Variable Pool_acquire : Pool -> Receiver -> list AcquireArg -> AcquireCall.
Variable acquire_otherwise : Client -> Val -> AcquireCall.
Variable end_calls_back : Receiver -> bool.

(** The promise that [destroy] builds, and the client it leaves. *)
Lemma destroy_run (client : Client) (callback : bool) (w : World) :
  let r := (destroy end_calls_back client callback w).1 in
  match pool_or_cluster client with
  | None => destroyed_promise r = Resolved tt /\ destroyed_client r = client
  | Some backend =>
      if end_calls_back backend
      then destroyed_promise r = Resolved tt
           /\ pool (destroyed_client r) = None /\ cluster (destroyed_client r) = None
      else destroyed_promise r = Pending /\ destroyed_client r = client
  end.
Proof.
  unfold destroy. run.
  destruct (pool_or_cluster client) as [backend|].
  - destruct (end_calls_back backend), callback; cbn; repeat split.
  - destruct callback; cbn; repeat split.
Qed.

(** C2. When the promise of [destroy] resolves, the client has neither
    a pool nor a cluster, and every later [acquireConnection] rejects
    with the error that no pool is defined.  When the client has neither
    to begin with, the promise resolves at once: the client is left as it
    is and nothing is asked of the pool library. *)
Theorem destroy_clears_pool_and_cluster (client : Client) (callback : bool) (w : World) :
  let r := (destroy end_calls_back client callback w).1 in
  let w' := (destroy end_calls_back client callback w).2 in
  (destroyed_promise r = Resolved tt ->
     pool (destroyed_client r) = None
     /\ cluster (destroyed_client r) = None
     /\ forall capability w'',
          acquireConnection Pool_acquire acquire_otherwise (destroyed_client r)
            capability w''
          = (mkAcquisition
               (Rejected (new_Error "There is no pool defined on the current client"))
               None,
             w''))
  /\ (pool client = None -> cluster client = None ->
        destroyed_promise r = Resolved tt
        /\ destroyed_client r = client
        /\ w' = with_calls w (if callback then [Call_callback] else [])).
Proof.
  intros r w'. pose proof (destroy_run client callback w) as Hrun.
  fold r in Hrun. split.
  - intros Hresolved.
    assert (pool (destroyed_client r) = None /\ cluster (destroyed_client r) = None)
      as [Hpool Hcluster].
    { destruct (pool_or_cluster client) as [backend|] eqn:Hbackend.
      - destruct (end_calls_back backend).
        + destruct Hrun as (_ & Hpool & Hcluster). now split.
        + destruct Hrun as [Hpending _]. congruence.
      - destruct Hrun as [_ ->]. now apply pool_or_cluster_None. }
    repeat split; try assumption.
    intros capability w''. now apply acquireConnection_no_pool.
  - intros Hpool Hcluster.
    assert (pool_or_cluster client = None) as Hnone
        by now apply pool_or_cluster_None.
    subst r w'. unfold destroy. run. rewrite Hnone.
    destruct callback; cbn; repeat split.
    unfold with_calls. rewrite app_nil_r. now destruct w.
Qed.

Lemma destroy_never_calls_back_stays (client : Client) (callback : bool) (w : World)
    (backend : Receiver) :
  pool_or_cluster client = Some backend ->
  end_calls_back backend = false ->
  (destroy end_calls_back client callback w).1
  = mkDestroyed client Pending (if callback then None else Some Pending).
Proof.
  intros Hbackend Hend. unfold destroy. run. rewrite Hbackend, Hend.
  now destruct callback.
Qed.

End DestroyProperties.

Lemma destroy_clears_pool_and_cluster_witness :
  destroyed_promise (destroy sample_end pooled_client false fresh_world).1 = Resolved tt
  /\ defined (pool pooled_client) = true
  /\ pool (destroyed_client (destroy sample_end pooled_client false fresh_world).1) = None
  /\ cluster (destroyed_client (destroy sample_end pooled_client false fresh_world).1) = None
  /\ acquireConnection (fun _ _ _ => sample_acquire) (fun _ _ => sample_acquire)
       (destroyed_client (destroy sample_end pooled_client false fresh_world).1)
       VUndefined fresh_world
     = (mkAcquisition
          (Rejected (new_Error "There is no pool defined on the current client")) None,
        fresh_world).
Proof.
  assert (Hresolved :
    destroyed_promise (destroy sample_end pooled_client false fresh_world).1 = Resolved tt)
    by reflexivity.
  pose proof (proj1 (destroy_clears_pool_and_cluster
                       (fun _ _ _ => sample_acquire) (fun _ _ => sample_acquire)
                       sample_end pooled_client false fresh_world) Hresolved)
    as (Hpool & Hcluster & Hacquire).
  split; [exact Hresolved|]. split; [reflexivity|].
  split; [exact Hpool|]. split; [exact Hcluster|].
  exact (Hacquire VUndefined fresh_world).
Defined.

(** ** Aborting a request *)

Section AbortProperties.

Variable Request_abort : Val -> Acquisition -> Acquisition.

Lemma abort_settled (reason : Val) (a : Acquisition) (w : World) :
  pending a = false -> abort Request_abort reason a w = (a, w).
Proof.
  unfold pending, abort. destruct (request a) as [r|]; [|reflexivity].
  now intros ->.
Qed.

Lemma abort_pending (reason : Val) (a : Acquisition) (w : World) :
  pending a = true ->
  abort Request_abort reason a w
  = (Request_abort reason a, with_calls w [Call_request_abort reason]).
Proof.
  unfold pending, abort. destruct (request a) as [r|]; [|discriminate].
  now intros ->.
Qed.

Lemma aborts_settled (reasons : list Val) (a : Acquisition) (w : World) :
  pending a = false -> aborts Request_abort reasons a w = (a, w).
Proof.
  intros Hsettled. induction reasons as [|reason rest IH]; [reflexivity|].
  cbn [aborts]. run. now rewrite abort_settled.
Qed.

(** C7. Once the request is fulfilled (or when there is none), [abort]
    changes nothing, however often it is called: the promise, the
    request and the trace stay as they are.  While the request is
    pending, [abort] passes the reason to the request's own [abort],
    once; and if that settles the request, the calls of [abort] that
    follow change nothing more. *)
Theorem abort_only_cancels_pending (a : Acquisition) (w : World) (reasons : list Val) :
  (pending a = false -> aborts Request_abort reasons a w = (a, w))
  /\ (pending a = true ->
        forall reason,
          abort Request_abort reason a w
          = (Request_abort reason a, with_calls w [Call_request_abort reason]))
  /\ (forall reason,
        pending (Request_abort reason a) = false ->
        aborts Request_abort (reason :: reasons) a w = abort Request_abort reason a w).
Proof.
  split; [|split].
  - apply aborts_settled.
  - intros Hpending reason. now apply abort_pending.
  - intros reason Hafter. cbn [aborts]. run.
    destruct (pending a) eqn:Hnow.
    + rewrite abort_pending by assumption. now apply aborts_settled.
    + rewrite abort_settled by assumption. now apply aborts_settled.
Qed.

End AbortProperties.

Lemma abort_only_cancels_pending_witness :
  pending served = false
  /\ aborts sample_abort [VStr "late"; VStr "again"] served fresh_world = (served, fresh_world)
  /\ pending waiting = true
  /\ abort sample_abort (VStr "timeout") waiting fresh_world
     = (sample_abort (VStr "timeout") waiting,
        with_calls fresh_world [Call_request_abort (VStr "timeout")])
  /\ aborts sample_abort [VStr "timeout"; VStr "late"; VStr "again"] waiting fresh_world
     = abort sample_abort (VStr "timeout") waiting fresh_world.
Proof.
  pose proof (abort_only_cancels_pending sample_abort served fresh_world
                [VStr "late"; VStr "again"]) as (Hserved & _ & _).
  pose proof (abort_only_cancels_pending sample_abort waiting fresh_world
                [VStr "late"; VStr "again"]) as (_ & Hwaiting & Honce).
  split; [reflexivity|]. split; [exact (Hserved eq_refl)|].
  split; [reflexivity|]. split; [exact (Hwaiting eq_refl (VStr "timeout"))|].
  exact (Honce (VStr "timeout") eq_refl).
Defined.

(** ** The pool's [acquire] *)

Section PoolAcquireProperties.

Variable globals : Obj.
Variable d : Dialect.

(** With no [connectionSettings] on the global object the closure
    throws before it asks the dialect for a connection. *)
Lemma poolDefaults_acquire_unbound (poolConfig : Obj) (w : World) :
  globals !! "connectionSettings" = None ->
  poolDefaults_acquire globals d poolConfig w
  = (AcquireThrows (mkError "ReferenceError" "connectionSettings is not defined"), w).
Proof. intros Hnone. unfold poolDefaults_acquire. now rewrite Hnone. Qed.

(** C5, as the code has it.  When the pool's [acquire] gets a
    connection from the dialect and the [afterCreate] hook fails on it
    with [e], by passing [e] to its callback or by throwing it, the
    callback of [acquire] is called with [e] and without a connection.
    The dialect was asked for the connection and the hook was run;
    nothing else was called, so the connection is not closed. *)
Theorem poolDefaults_acquire_afterCreate_failure
    (poolConfig : Obj) (w : World) (settings : Val) (raw : Connection)
    (h : option Connection -> HookOutcome) (e : Error) :
  globals !! "connectionSettings" = Some settings ->
  acquireRawConnection d settings = Resolved raw ->
  get poolConfig "afterCreate" = VHook h ->
  h (Some (tagged_handle raw w)) = HookDone (Some e)
  \/ h (Some (tagged_handle raw w)) = HookThrows e ->
  poolDefaults_acquire globals d poolConfig w
  = (AcquireCallback (inl e),
     mkWorld (events w)
       (calls w ++ [Call_acquireRawConnection settings;
                    Call_afterCreate (tagged_handle raw w)])
       (S (idCounter w)))
  /\ Call_destroyRawConnection (tagged_handle raw w)
     ∉ [Call_acquireRawConnection settings; Call_afterCreate (tagged_handle raw w)].
Proof.
  intros Hglobal Hraw Hhook Hfails. split.
  - unfold poolDefaults_acquire, promisify, uniqueId. run.
    rewrite Hglobal, Hraw, Hhook. cbn [truthy calls events idCounter].
    fold (tagged_handle raw w).
    destruct Hfails as [-> | ->]; cbn; now rewrite <- app_assoc.
  - intros [Hin|Hin]%elem_of_cons; [discriminate|].
    apply list_elem_of_singleton in Hin. discriminate.
Qed.

End PoolAcquireProperties.

Lemma poolDefaults_acquire_afterCreate_failure_witness :
  sample_globals !! "connectionSettings" = Some (VObj endpoint)
  /\ poolDefaults_acquire sample_globals failing_dialect failing_hook_config fresh_world
     = (AcquireCallback (inl (new_Error "not ready")),
        mkWorld []
          [Call_acquireRawConnection (VObj endpoint);
           Call_afterCreate (mkConnection 7 (Some "__knexUid1"))]
          1).
Proof.
  split; [reflexivity|].
  exact (proj1 (poolDefaults_acquire_afterCreate_failure sample_globals failing_dialect
                  failing_hook_config fresh_world (VObj endpoint) (mkConnection 7 None)
                  (fun _ => HookDone (Some (new_Error "not ready"))) (new_Error "not ready")
                  eq_refl eq_refl eq_refl (or_introl eq_refl))).
Defined.

(** C5 fails where it says that the handle is disposed: after the hook
    has failed the callback has the error, and the trace of outside calls
    holds the connect and the hook, and no call of the dialect's
    [destroyRawConnection]. *)
Lemma poolDefaults_acquire_leaves_handle_open :
  let run := poolDefaults_acquire sample_globals failing_dialect failing_hook_config
               fresh_world in
  run.1 = AcquireCallback (inl (new_Error "not ready"))
  /\ calls run.2 = [Call_acquireRawConnection (VObj endpoint);
                    Call_afterCreate (mkConnection 7 (Some "__knexUid1"))]
  /\ forall c, Call_destroyRawConnection c ∉ calls run.2.
Proof.
  cbv zeta. split; [reflexivity|]. split; [reflexivity|].
  intros c Hin.
  change (calls _) with [Call_acquireRawConnection (VObj endpoint);
                         Call_afterCreate (mkConnection 7 (Some "__knexUid1"))] in Hin.
  apply elem_of_cons in Hin as [Hin|Hin]; [discriminate|].
  apply list_elem_of_singleton in Hin. discriminate.
Qed.

(** * Further properties *)

(** ** Identifier quoting, continued *)

Lemma wrapIdentifier_not_star (name : string) :
  name <> "*" -> wrapIdentifier name <> "*".
Proof.
  intros Hne Heq. apply (f_equal Str.to_list) in Heq.
  rewrite wrapIdentifier_quoted in Heq by assumption.
  cbn in Heq. injection Heq as Hhead _. discriminate.
Qed.

Lemma unwrapIdentifier_wrapIdentifier (name : string) :
  unwrapIdentifier (wrapIdentifier name) = name.
Proof.
  destruct (String.eqb name "*") eqn:Hname.
  - apply String.eqb_eq in Hname. now subst name.
  - apply String.eqb_neq in Hname. unfold unwrapIdentifier.
    pose proof (wrapIdentifier_not_star name Hname) as Hwrapped.
    apply String.eqb_neq in Hwrapped. rewrite Hwrapped.
    rewrite wrapIdentifier_quoted by assumption.
    rewrite removelast_last, undouble_double_quotes. apply of_list_to_list.
Qed.

(** X1. Quoting loses nothing: reading the result of [wrapIdentifier]
    back, by dropping the outer quotes and taking every pair of double
    quotes for one, gives the name again; [*] is read back as [*]. *)
Theorem wrapIdentifier_round_trip (name : string) :
  unwrapIdentifier (wrapIdentifier name) = name
  /\ (String.eqb name "*" = false ->
        exists body,
          Str.to_list (wrapIdentifier name) = (Str.dquote :: body ++ [Str.dquote])%list
          /\ undouble body = Str.to_list name).
Proof.
  split; [apply unwrapIdentifier_wrapIdentifier|].
  intros Hname%String.eqb_neq. exists (double_quotes (Str.to_list name)).
  split; [now apply wrapIdentifier_quoted | apply undouble_double_quotes].
Qed.

Lemma wrapIdentifier_round_trip_witness :
  String.eqb "user name" "*" = false
  /\ exists body,
       Str.to_list (wrapIdentifier "user name") = (Str.dquote :: body ++ [Str.dquote])%list
       /\ undouble body = Str.to_list "user name".
Proof.
  split; [reflexivity|].
  exact (proj2 (wrapIdentifier_round_trip "user name") eq_refl).
Defined.

(** X2. Two different names are never quoted to the same string. *)
Theorem wrapIdentifier_distinct (a b : string) :
  a <> b -> wrapIdentifier a <> wrapIdentifier b.
Proof.
  intros Hne Heq. apply Hne.
  rewrite <- (unwrapIdentifier_wrapIdentifier a), <- (unwrapIdentifier_wrapIdentifier b).
  now rewrite Heq.
Qed.

Lemma wrapIdentifier_distinct_witness :
  "*" <> Str.of_list ["034"; "*"; "034"]%char
  /\ wrapIdentifier "*" <> wrapIdentifier (Str.of_list ["034"; "*"; "034"]%char).
Proof.
  assert (Hne : "*" <> Str.of_list ["034"; "*"; "034"]%char) by discriminate.
  split; [exact Hne|].
  exact (wrapIdentifier_distinct "*" (Str.of_list ["034"; "*"; "034"]%char) Hne).
Defined.

Lemma length_to_list (s : string) : length (Str.to_list s) = String.length s.
Proof. induction s as [|a s IH]; simpl; [reflexivity | now rewrite IH]. Qed.

Lemma length_double_quotes (l : list ascii) :
  length (double_quotes l) = (length l + count_occ ascii_dec l Str.dquote)%nat.
Proof.
  induction l as [|c l IH]; [reflexivity|].
  unfold double_quotes in *. cbn [flat_map count_occ].
  rewrite length_app, IH.
  destruct (ascii_dec c Str.dquote) as [->|Hc].
  - rewrite Ascii.eqb_refl. cbn [length]. lia.
  - apply Ascii.eqb_neq in Hc. rewrite Hc. cbn [length]. lia.
Qed.

(** X3. The quoted form of a name other than [*] is longer than the name
    by the two outer quotes and by one character for each double quote
    that the name holds; [*] keeps its length of one. *)
Theorem wrapIdentifier_length (name : string) :
  String.length (wrapIdentifier name)
  = if String.eqb name "*" then 1%nat
    else (2 + String.length name + quotes_in name)%nat.
Proof.
  destruct (String.eqb name "*") eqn:Hname.
  - apply String.eqb_eq in Hname. now subst name.
  - apply String.eqb_neq in Hname.
    rewrite <- length_to_list, wrapIdentifier_quoted by assumption.
    cbn [length]. rewrite length_app, length_double_quotes, length_to_list.
    unfold quotes_in. cbn [length]. lia.
Qed.

(** ** Running statements, continued *)





(** X5. The statement in the message is the one that the request object
    holds when the failure is handled.  The dialect's primitive is given
    the object itself: if it has rewritten [sql] or [bindings] by the time
    its promise rejects, the message and the payload of [query-error] show
    the rewritten statement, while the [query] event, emitted before, shows
    the statement as it was. *)
Theorem query_renders_the_statement_as_left
    (SqlString_format : Val -> Val -> string) (d : Dialect)
    (connection : Connection) (req : Request) (w : World) (e : Error) (left : Obj) :
  _query d connection (normalize req) = (Rejected e, left) ->
  let err := mkError (err_name e)
               (SqlString_format (get left "sql") (get left "bindings")
                ++ " - " ++ message e) in
  (query SqlString_format d connection req w).1 = Rejected err
  /\ new_events w (query SqlString_format d connection req w).2
     = [mkEvent "query" [ArgObj (tagged connection (normalize req))];
        mkEvent "query-error" [ArgErr err; ArgObj (tagged connection left)]].
Proof.
  intros Hq err. rewrite (query_rejected _ _ connection req w e left Hq).
  split; [reflexivity|].
  unfold new_events. cbn [snd with_events events]. now rewrite drop_app_length.
Qed.

Lemma query_renders_the_statement_as_left_witness :
  _query rewriting_dialect sample_connection select_x
  = (Rejected (new_Error "boom"), <[ "sql" := VStr "SELECT $1 AS x" ]> select_x)
  /\ (query format_positional rewriting_dialect sample_connection (ReqObject select_x)
        fresh_world).1
     = Rejected (mkError "Error" "SELECT $1 AS x - boom").
Proof.
  split; [reflexivity|].
  exact (proj1 (query_renders_the_statement_as_left format_positional rewriting_dialect
                  sample_connection (ReqObject select_x) fresh_world (new_Error "boom")
                  (<[ "sql" := VStr "SELECT $1 AS x" ]> select_x) eq_refl)).
Defined.

(** X6. [query] settles as the dialect's primitive does: it resolves
    with the same value, stays pending with it, or rejects with an error
    of the same name whose message ends in the original one.  It emits two
    events in the last case and one otherwise, and it takes no
    identifier. *)
Theorem query_settles_as_the_primitive
    (SqlString_format : Val -> Val -> string) (d : Dialect)
    (connection : Connection) (req : Request) (w : World) :
  let run := query SqlString_format d connection req w in
  idCounter run.2 = idCounter w
  /\ match (_query d connection (normalize req)).1 with
     | Resolved v => run.1 = Resolved v /\ length (new_events w run.2) = 1%nat
     | Pending => run.1 = Pending /\ length (new_events w run.2) = 1%nat
     | Rejected e =>
         (exists statement,
            run.1 = Rejected (mkError (err_name e) (statement ++ " - " ++ message e)))
         /\ length (new_events w run.2) = 2%nat
     end.
Proof.
  intros run. subst run. unfold new_events.
  destruct (_query d connection (normalize req)) as [p left] eqn:Hq.
  destruct p as [v|e|]; cbn [fst].
  - rewrite (query_not_rejected _ _ connection req w (Resolved v) left) by easy.
    cbn [fst snd with_events events calls idCounter]. now rewrite drop_app_length.
  - rewrite (query_rejected _ _ connection req w e left Hq).
    cbn [fst snd with_events events calls idCounter]. rewrite drop_app_length.
    repeat split. now eexists.
  - rewrite (query_not_rejected _ _ connection req w Pending left) by easy.
    cbn [fst snd with_events events calls idCounter]. now rewrite drop_app_length.
Qed.

(** ** The pool's [acquire], continued *)

Lemma new_calls_app (w : World) (events' : list Event) (added : list Call) (n : nat) :
  new_calls w (mkWorld events' (calls w ++ added) n) = added.
Proof. unfold new_calls. cbn [calls]. apply drop_app_length. Qed.

Lemma new_calls_same (w : World) : new_calls w w = [].
Proof. unfold new_calls. apply drop_all. Qed.

Section PoolAcquireMore.

Variable globals : Obj.
Variable d : Dialect.

(** Every way in which the closure can go, by what it finds. *)
Lemma poolDefaults_acquire_cases (poolConfig : Obj) (w : World) :
  (globals !! "connectionSettings" = None
   /\ poolDefaults_acquire globals d poolConfig w
      = (AcquireThrows (mkError "ReferenceError" "connectionSettings is not defined"), w))
  \/ exists settings,
       globals !! "connectionSettings" = Some settings
       /\ ((exists e,
              acquireRawConnection d settings = Rejected e
              /\ poolDefaults_acquire globals d poolConfig w
                 = (AcquireCallback (inl e),
                    with_calls w [Call_acquireRawConnection settings]))
           \/ (acquireRawConnection d settings = Pending
               /\ poolDefaults_acquire globals d poolConfig w
                  = (AcquireNoCallback, with_calls w [Call_acquireRawConnection settings]))
           \/ exists raw,
                acquireRawConnection d settings = Resolved raw
                /\ let c := tagged_handle raw w in
                   let connected := [Call_acquireRawConnection settings] in
                   let hooked := [Call_acquireRawConnection settings; Call_afterCreate c] in
                   let after added := mkWorld (events w) (calls w ++ added) (S (idCounter w)) in
                   (truthy (get poolConfig "afterCreate") = false
                    /\ poolDefaults_acquire globals d poolConfig w
                       = (AcquireCallback (inr c), after connected))
                   \/ (truthy (get poolConfig "afterCreate") = true
                       /\ (forall h, get poolConfig "afterCreate" <> VHook h)
                       /\ poolDefaults_acquire globals d poolConfig w
                          = (AcquireCallback
                               (inl (mkError "TypeError"
                                       ("expecting a function but got "
                                        ++ classString (get poolConfig "afterCreate")))),
                             after connected))
                   \/ exists h,
                        get poolConfig "afterCreate" = VHook h
                        /\ poolDefaults_acquire globals d poolConfig w
                           = (match h (Some c) with
                              | HookDone None => AcquireCallback (inr c)
                              | HookDone (Some e) => AcquireCallback (inl e)
                              | HookThrows e => AcquireCallback (inl e)
                              | HookSilent => AcquireNoCallback
                              end, after hooked)).
Proof.
  unfold poolDefaults_acquire, promisify, uniqueId. run.
  destruct (globals !! "connectionSettings") as [settings|]; [right|left; easy].
  exists settings. split; [reflexivity|].
  destruct (acquireRawConnection d settings) as [raw|e|].
  - right. right. exists raw. split; [reflexivity|].
    cbn [calls events idCounter]. fold (tagged_handle raw w).
    destruct (truthy (get poolConfig "afterCreate")) eqn:Htruthy.
    + right. destruct (get poolConfig "afterCreate") as [| |b|n|s|xs|o|sql|h] eqn:Hhook;
        try (left; repeat split; easy).
      right. exists h. split; [reflexivity|].
      cbn [calls events idCounter].
      destruct (h (Some (tagged_handle raw w))) as [[e|]|e|];
        cbn; now rewrite <- app_assoc.
    + left. easy.
  - left. exists e. easy.
  - right. left. easy.
Qed.

(** X7. Whenever the pool's [acquire] hands a connection to its
    callback, the dialect produced it, it carries the identifier made from
    the next value of the counter, and the [afterCreate] hook, if the
    configuration has one, has been given the tagged connection and has
    called back without an error.  No event is emitted. *)
Theorem poolDefaults_acquire_hands_out_tagged
    (poolConfig : Obj) (w w' : World) (c : Connection) :
  poolDefaults_acquire globals d poolConfig w = (AcquireCallback (inr c), w') ->
  exists settings raw,
    globals !! "connectionSettings" = Some settings
    /\ acquireRawConnection d settings = Resolved raw
    /\ c = mkConnection (raw_handle raw) (Some ("__knexUid" ++ pretty (S (idCounter w))))
    /\ idCounter w' = S (idCounter w)
    /\ events w' = events w
    /\ (truthy (get poolConfig "afterCreate") = false
        \/ exists h, get poolConfig "afterCreate" = VHook h /\ h (Some c) = HookDone None).
Proof.
  intros Hrun.
  destruct (poolDefaults_acquire_cases poolConfig w)
    as [[_ Hthrows] | (settings & Hglobal & [(e & _ & Hfail) | [[_ Hpending] | (raw & Hraw & Hrest)]])];
    try congruence.
  exists settings, raw. cbv zeta in Hrest.
  destruct Hrest as [[Hfalsy Hplain] | [(_ & _ & Hbad) | (h & Hhook & Hhooked)]];
    try congruence.
  - rewrite Hplain in Hrun. injection Hrun as <- <-. repeat split; auto.
  - rewrite Hhooked in Hrun.
    destruct (h (Some (tagged_handle raw w))) as [[e|]|e|] eqn:Hh; try discriminate.
    injection Hrun as <- <-. repeat split; auto. right. now exists h.
Qed.

(** X8. When the dialect cannot connect, the callback of [acquire] gets
    the dialect's error as it is; the hook is not run and no identifier
    is taken from the counter. *)
Theorem poolDefaults_acquire_connect_failure
    (poolConfig : Obj) (w : World) (settings : Val) (e : Error) :
  globals !! "connectionSettings" = Some settings ->
  acquireRawConnection d settings = Rejected e ->
  poolDefaults_acquire globals d poolConfig w
  = (AcquireCallback (inl e),
     mkWorld (events w) (calls w ++ [Call_acquireRawConnection settings]) (idCounter w)).
Proof.
  intros Hglobal Hraw. unfold poolDefaults_acquire. run. now rewrite Hglobal, Hraw.
Qed.

(** X10. Whatever the configuration and the dialect, [acquire] leaves
    the events and the earlier calls alone, and the calls it adds are the
    connect and, at most, the hook: it never closes a connection. *)
Theorem poolDefaults_acquire_never_closes (poolConfig : Obj) (w : World) :
  let w' := (poolDefaults_acquire globals d poolConfig w).2 in
  events w' = events w
  /\ calls w' = (calls w ++ new_calls w w')%list
  /\ Forall (fun made => match made with
                         | Call_acquireRawConnection _ | Call_afterCreate _ => True
                         | _ => False
                         end) (new_calls w w').
Proof.
  cbv zeta.
  destruct (poolDefaults_acquire_cases poolConfig w)
    as [[_ ->] | (settings & _ & [(e & _ & ->) | [[_ ->] | (raw & _ & Hrest)]])].
  - cbn [snd]. rewrite new_calls_same, app_nil_r. easy.
  - unfold with_calls. cbn [snd]. rewrite new_calls_app. repeat constructor.
  - unfold with_calls. cbn [snd]. rewrite new_calls_app. repeat constructor.
  - cbv zeta in Hrest.
    destruct Hrest as [[_ ->] | [(_ & _ & ->) | (h & _ & ->)]];
      cbn [snd]; rewrite new_calls_app; repeat constructor.
Qed.

(** X11. The callback of [acquire] is never called in three cases and
    in no other: nothing binds [connectionSettings], so that [acquire]
    throws a [ReferenceError] before it connects; the dialect's connect
    never settles; or the [afterCreate] hook is given the tagged connection
    and never calls back.  [acquire] throws in the first case only. *)
Theorem poolDefaults_acquire_hangs_only (poolConfig : Obj) (w : World) :
  let outcome := (poolDefaults_acquire globals d poolConfig w).1 in
  ((forall r, outcome <> AcquireCallback r)
   <-> (globals !! "connectionSettings" = None
        \/ exists settings,
             globals !! "connectionSettings" = Some settings
             /\ (acquireRawConnection d settings = Pending
                 \/ exists raw h,
                      acquireRawConnection d settings = Resolved raw
                      /\ get poolConfig "afterCreate" = VHook h
                      /\ h (Some (tagged_handle raw w)) = HookSilent)))
  /\ ((exists e, outcome = AcquireThrows e) <-> globals !! "connectionSettings" = None).
Proof.
  cbv zeta.
  destruct (poolDefaults_acquire_cases poolConfig w)
    as [[Hnone ->] | (settings & Hglobal & [(e & Hraw & ->) | [[Hraw ->] | (raw & Hraw & Hrest)]])];
    cbn [fst].
  - split; split; eauto; try discriminate.
  - split; split.
    + intros Hnever. now destruct (Hnever (inl e)).
    + intros [Hnone | (settings' & Hglobal' & [Hpending | (raw & h & Hraw' & _)])];
        congruence.
    + intros [e' He']. discriminate.
    + congruence.
  - split; split.
    + intros _. right. exists settings. auto.
    + discriminate.
    + intros [e' He']. discriminate.
    + congruence.
  - cbv zeta in Hrest.
    destruct Hrest as [[Hfalsy ->] | [(Htruthy & Hnot & ->) | (h & Hhook & ->)]]; cbn [fst].
    + split; split.
      * intros Hnever. now destruct (Hnever (inr (tagged_handle raw w))).
      * intros [Hnone | (settings' & Hglobal' & [Hpending | (raw' & h & Hraw' & Hhook & _)])];
          try congruence; try (rewrite Hhook in Hfalsy; discriminate).
      * intros [e' He']. discriminate.
      * congruence.
    + split; split.
      * intros Hnever. now edestruct Hnever.
      * intros [Hnone | (settings' & Hglobal' & [Hpending | (raw' & h & Hraw' & Hhook & _)])];
          try congruence; try now destruct (Hnot h).
      * intros [e' He']. discriminate.
      * congruence.
    + split; split.
      * intros Hnever. right. exists settings. split; [assumption|]. right.
        exists raw, h. repeat split; try assumption.
        destruct (h (Some (tagged_handle raw w))) as [[e|]|e|]; try reflexivity;
          now edestruct Hnever.
      * intros [Hnone | (settings' & Hglobal' & [Hpending | (raw' & h' & Hraw' & Hhook' & Hsilent)])];
          try congruence.
        assert (raw' = raw) as -> by congruence.
        assert (h' = h) as -> by congruence.
        rewrite Hsilent. discriminate.
      * intros [e' He']. destruct (h (Some (tagged_handle raw w))) as [[e|]|e|]; discriminate.
      * congruence.
Qed.

(** X12. An [afterCreate] that is truthy and not a function fails the
    acquire after the connection has been made and tagged: the callback
    gets the [TypeError] with which bluebird's [promisify] refuses what is
    not a function, which names the kind of value it got. *)
Theorem poolDefaults_acquire_hook_not_callable
    (poolConfig : Obj) (w : World) (settings : Val) (raw : Connection) :
  globals !! "connectionSettings" = Some settings ->
  acquireRawConnection d settings = Resolved raw ->
  truthy (get poolConfig "afterCreate") = true ->
  (forall h, get poolConfig "afterCreate" <> VHook h) ->
  poolDefaults_acquire globals d poolConfig w
  = (AcquireCallback
       (inl (mkError "TypeError"
               ("expecting a function but got "
                ++ classString (get poolConfig "afterCreate")))),
     mkWorld (events w) (calls w ++ [Call_acquireRawConnection settings]) (S (idCounter w))).
Proof.
  intros Hglobal Hraw Htruthy Hnot.
  destruct (poolDefaults_acquire_cases poolConfig w)
    as [[Hnone _] | (settings' & Hglobal' & [(e & Hfail & _) | [[Hpending _] | (raw' & Hraw' & Hrest)]])];
    try congruence.
  assert (settings' = settings) as -> by congruence.
  assert (raw' = raw) as -> by congruence.
  cbv zeta in Hrest.
  destruct Hrest as [[Hfalsy _] | [(_ & _ & Hbad) | (h & Hhook & _)]].
  - congruence.
  - exact Hbad.
  - now destruct (Hnot h).
Qed.

End PoolAcquireMore.

Lemma poolDefaults_acquire_hands_out_tagged_witness :
  poolDefaults_acquire sample_globals failing_dialect ∅ fresh_world
  = (AcquireCallback (inr (mkConnection 7 (Some "__knexUid1"))),
     mkWorld [] [Call_acquireRawConnection (VObj endpoint)] 1)
  /\ exists settings raw,
       sample_globals !! "connectionSettings" = Some settings
       /\ acquireRawConnection failing_dialect settings = Resolved raw
       /\ mkConnection 7 (Some "__knexUid1")
          = mkConnection (raw_handle raw) (Some ("__knexUid" ++ pretty 1%nat)).
Proof.
  assert (Hrun :
    poolDefaults_acquire sample_globals failing_dialect ∅ fresh_world
    = (AcquireCallback (inr (mkConnection 7 (Some "__knexUid1"))),
       mkWorld [] [Call_acquireRawConnection (VObj endpoint)] 1)) by reflexivity.
  split; [exact Hrun|].
  destruct (poolDefaults_acquire_hands_out_tagged sample_globals failing_dialect ∅
              fresh_world _ _ Hrun)
    as (settings & raw & Hglobal & Hraw & Hc & _).
  exists settings, raw. repeat split; assumption.
Defined.

Lemma poolDefaults_acquire_connect_failure_witness :
  sample_globals !! "connectionSettings" = Some (VObj endpoint)
  /\ poolDefaults_acquire sample_globals unreachable_dialect failing_hook_config fresh_world
     = (AcquireCallback (inl (new_Error "ECONNREFUSED")),
        mkWorld [] [Call_acquireRawConnection (VObj endpoint)] 0).
Proof.
  split; [reflexivity|].
  exact (poolDefaults_acquire_connect_failure sample_globals unreachable_dialect
           failing_hook_config fresh_world (VObj endpoint) (new_Error "ECONNREFUSED")
           eq_refl eq_refl).
Defined.

Lemma poolDefaults_acquire_hangs_only_witness :
  (exists settings,
     sample_globals !! "connectionSettings" = Some settings
     /\ (acquireRawConnection failing_dialect settings = Pending
         \/ exists raw h,
              acquireRawConnection failing_dialect settings = Resolved raw
              /\ get silent_hook_config "afterCreate" = VHook h
              /\ h (Some (tagged_handle raw fresh_world)) = HookSilent))
  /\ forall r,
       (poolDefaults_acquire sample_globals failing_dialect silent_hook_config fresh_world).1
       <> AcquireCallback r.
Proof.
  assert (Hsilent :
    exists settings,
      sample_globals !! "connectionSettings" = Some settings
      /\ (acquireRawConnection failing_dialect settings = Pending
          \/ exists raw h,
               acquireRawConnection failing_dialect settings = Resolved raw
               /\ get silent_hook_config "afterCreate" = VHook h
               /\ h (Some (tagged_handle raw fresh_world)) = HookSilent)).
  { exists (VObj endpoint). split; [reflexivity|]. right.
    exists (mkConnection 7 None), (fun _ => HookSilent). repeat split. }
  split; [exact Hsilent|].
  exact (proj2 (proj1 (poolDefaults_acquire_hangs_only sample_globals failing_dialect
                         silent_hook_config fresh_world))
           (or_intror Hsilent)).
Defined.

Lemma poolDefaults_acquire_hook_not_callable_witness :
  truthy (get string_hook_config "afterCreate") = true
  /\ poolDefaults_acquire sample_globals failing_dialect string_hook_config fresh_world
     = (AcquireCallback
          (inl (mkError "TypeError" "expecting a function but got [object String]")),
        mkWorld [] [Call_acquireRawConnection (VObj endpoint)] 1).
Proof.
  split; [reflexivity|].
  refine (poolDefaults_acquire_hook_not_callable sample_globals failing_dialect
            string_hook_config fresh_world (VObj endpoint) (mkConnection 7 None)
            eq_refl eq_refl eq_refl _).
  intros h. discriminate.
Defined.



(** ** The pool's [dispose] *)

(** Every way in which the closure can go. *)
Lemma poolDefaults_dispose_cases (poolConfig : Obj) (connection : option Connection) (w : World) :
  let close := match connection with
               | Some c => [Call_destroyRawConnection c]
               | None => []
               end in
  (truthy (get poolConfig "beforeDestroy") = false
   /\ poolDefaults_dispose poolConfig connection w = (DisposeReturns, with_calls w close))
  \/ (truthy (get poolConfig "beforeDestroy") = true
      /\ (forall h, get poolConfig "beforeDestroy" <> VHook h)
      /\ poolDefaults_dispose poolConfig connection w
         = (DisposeThrows (mkError "TypeError" "poolConfig.beforeDestroy is not a function"),
            w))
  \/ exists h,
       get poolConfig "beforeDestroy" = VHook h
       /\ poolDefaults_dispose poolConfig connection w
          = match h connection with
            | HookDone _ =>
                (DisposeReturns, with_calls w (Call_beforeDestroy connection :: close))
            | HookThrows e =>
                (DisposeThrows e, with_calls w [Call_beforeDestroy connection])
            | HookSilent =>
                (DisposeReturns, with_calls w [Call_beforeDestroy connection])
            end.
Proof.
  cbv zeta. unfold poolDefaults_dispose, destroy_if_defined, with_calls. run.
  destruct (truthy (get poolConfig "beforeDestroy")) eqn:Htruthy.
  - right.
    destruct (get poolConfig "beforeDestroy") as [| |b|n|s|xs|o|sql|h] eqn:Hhook;
      try (left; repeat split; easy).
    right. exists h. split; [reflexivity|].
    destruct (h connection) as [err|e|]; try reflexivity.
    destruct connection as [c|]; cbn; [now rewrite <- app_assoc | reflexivity].
  - left. split; [reflexivity|].
    destruct connection as [c|]; cbn; [reflexivity|].
    rewrite app_nil_r. now destruct w.
Qed.

(** X13. [dispose] closes a connection exactly when it is given one and
    the configuration has no [beforeDestroy], or has one that calls back:
    the error that the hook may pass to its callback does not keep the
    connection open, a hook that throws or never calls back does, and for
    an undefined connection nothing is closed. *)
Theorem poolDefaults_dispose_closes_iff
    (poolConfig : Obj) (connection : option Connection) (w : World) (c : Connection) :
  Call_destroyRawConnection c ∈ new_calls w (poolDefaults_dispose poolConfig connection w).2
  <-> connection = Some c
      /\ (truthy (get poolConfig "beforeDestroy") = false
          \/ exists h err,
               get poolConfig "beforeDestroy" = VHook h /\ h connection = HookDone err).
Proof.
  destruct (poolDefaults_dispose_cases poolConfig connection w)
    as [[Hfalsy ->] | [(Htruthy & Hnot & ->) | (h & Hhook & ->)]].
  - unfold with_calls. cbn [snd]. rewrite new_calls_app.
    destruct connection as [c'|].
    + rewrite list_elem_of_singleton. split.
      * intros [= ->]. auto.
      * now intros [[= ->] _].
    + split; [intros Hin; inversion Hin | now intros [? _]].
  - cbn [snd]. rewrite new_calls_same. split; [intros Hin; inversion Hin|].
    intros [_ [Hfalsy | (h & err & Hhook & _)]]; [congruence | now destruct (Hnot h)].
  - assert (truthy (get poolConfig "beforeDestroy") = true) as Htruthy by now rewrite Hhook.
    destruct (h connection) as [err|e|] eqn:Hh; unfold with_calls; cbn [snd];
      rewrite new_calls_app.
    + destruct connection as [c'|].
      * rewrite elem_of_cons, list_elem_of_singleton. split.
        -- intros [Hin | [= ->]]; [discriminate|]. split; [reflexivity|].
           right. now exists h, err.
        -- intros [[= ->] _]. now right.
      * rewrite list_elem_of_singleton. split; [discriminate | now intros [? _]].
    + rewrite list_elem_of_singleton. split; [discriminate|].
      intros [_ [Hfalsy | (h' & err & Hhook' & Hh')]]; congruence.
    + rewrite list_elem_of_singleton. split; [discriminate|].
      intros [_ [Hfalsy | (h' & err & Hhook' & Hh')]]; congruence.
Qed.

Lemma poolDefaults_dispose_closes_iff_witness :
  Call_destroyRawConnection sample_connection
  ∈ new_calls fresh_world
      (poolDefaults_dispose complaining_destroy_config (Some sample_connection) fresh_world).2
  /\ get complaining_destroy_config "beforeDestroy"
     = VHook (fun _ => HookDone (Some (new_Error "busy"))).
Proof.
  split; [|reflexivity].
  apply (proj2 (poolDefaults_dispose_closes_iff complaining_destroy_config
                  (Some sample_connection) fresh_world sample_connection)).
  split; [reflexivity|]. right.
  exists (fun _ => HookDone (Some (new_Error "busy"))), (Some (new_Error "busy")).
  split; reflexivity.
Defined.

(** ** Building pools, continued *)

Lemma initializePool_some (poolConfig : Obj) (cs : Obj) (w : World) :
  initializePool (Some poolConfig) cs w
  = (pool_for poolConfig, with_calls w [Call_new_Pool (pool_options (pool_for poolConfig))]).
Proof. reflexivity. Qed.

Lemma pool_for_lookup (poolConfig : Obj) (k : string) :
  pool_options (pool_for poolConfig) !! k
  = match poolConfig !! k with
    | Some v => Some (OptVal v)
    | None => poolDefaults poolConfig ∅ !! k
    end.
Proof.
  unfold pool_for, assign. cbn [pool_options].
  destruct (poolConfig !! k) as [v|] eqn:Hk.
  - apply lookup_union_Some_l. now rewrite lookup_fmap, Hk.
  - apply lookup_union_r. now rewrite lookup_fmap, Hk.
Qed.

Lemma dom_poolDefaults (poolConfig cs : Obj) :
  dom (poolDefaults poolConfig cs)
  = ({[ "min"; "max"; "acquire"; "dispose"; "ping" ]} : gset string).
Proof.
  unfold poolDefaults. rewrite !dom_insert_L, dom_singleton_L. set_solver.
Qed.

(** X15. The options that the pool library is given are the five
    defaults and the properties of the pool configuration, nothing else.
    Unless the configuration has a property of that name, [acquire] and
    [dispose] are the closures over this very configuration, so that its
    [afterCreate] and [beforeDestroy] are the hooks they run, and [ping] is
    the client's. *)
Theorem initializePool_options (poolConfig : option Obj) (cs : Obj) (w : World) :
  let given := default ∅ poolConfig in
  let options := pool_options (initializePool poolConfig cs w).1 in
  dom options = dom given ∪ ({[ "min"; "max"; "acquire"; "dispose"; "ping" ]} : gset string)
  /\ (given !! "acquire" = None -> options !! "acquire" = Some (OptAcquire given))
  /\ (given !! "dispose" = None -> options !! "dispose" = Some (OptDispose given))
  /\ (given !! "ping" = None -> options !! "ping" = Some OptPing).
Proof.
  cbv zeta. destruct poolConfig as [given|]; unfold default; cbn [from_option id].
  - rewrite initializePool_some. cbn [fst].
    split; [|split; [|split]].
    + unfold pool_for, assign. cbn [pool_options].
      now rewrite dom_union_L, dom_fmap_L, dom_poolDefaults.
    + intros Hk. now rewrite pool_for_lookup, Hk.
    + intros Hk. now rewrite pool_for_lookup, Hk.
    + intros Hk. now rewrite pool_for_lookup, Hk.
  - unfold initializePool. run. unfold default. cbn [from_option id fst pool_options].
    split; [|easy]. rewrite dom_poolDefaults, dom_empty_L. set_solver.
Qed.

Lemma initializePool_options_witness :
  failing_hook_config !! "acquire" = None
  /\ pool_options (initializePool (Some failing_hook_config) endpoint fresh_world).1
       !! "acquire"
     = Some (OptAcquire failing_hook_config).
Proof.
  split; [reflexivity|].
  exact (proj1 (proj2 (initializePool_options (Some failing_hook_config) endpoint
                         fresh_world)) eq_refl).
Defined.

Lemma initializeCluster_pools_run (clusterConfig : list Obj) (cs : Obj) (w : World) :
  initializeCluster_pools clusterConfig cs w
  = (map pool_for clusterConfig,
     with_calls w (map (fun endpoint => Call_new_Pool (pool_options (pool_for endpoint)))
                     clusterConfig)).
Proof.
  revert cs w. induction clusterConfig as [|endpoint rest IH]; intros cs w.
  - unfold with_calls. cbn. rewrite app_nil_r. now destruct w.
  - cbn [initializeCluster_pools map]. run. rewrite initializePool_some, IH.
    unfold with_calls. cbn [events calls idCounter]. now rewrite <- app_assoc.
Qed.

Lemma initializeCluster_run (clusterConfig : list Obj) (cs : Obj) (w : World) :
  initializeCluster clusterConfig cs w
  = (mkCluster (map pool_for clusterConfig),
     with_calls w
       (map (fun endpoint => Call_new_Pool (pool_options (pool_for endpoint))) clusterConfig
        ++ [Call_new_Cluster (map pool_for clusterConfig)])).
Proof.
  unfold initializeCluster. run. rewrite initializeCluster_pools_run.
  unfold with_calls. cbn [events calls idCounter]. now rewrite <- app_assoc.
Qed.

(** X16. [initializeCluster] builds one pool for each entry of the
    cluster configuration, in the order of the entries, and then the
    cluster over exactly these pools; every property of an entry, its
    endpoint settings included, is handed to the pool library as an option
    of that entry's pool.  It emits no event. *)
Theorem initializeCluster_one_pool_per_entry
    (clusterConfig : list Obj) (cs : Obj) (w : World) :
  let made := initializeCluster clusterConfig cs w in
  let pools := cluster_pools made.1 in
  length pools = length clusterConfig
  /\ new_calls w made.2
     = (map (fun p => Call_new_Pool (pool_options p)) pools ++ [Call_new_Cluster pools])%list
  /\ Forall2 (fun entry p =>
                forall k v, entry !! k = Some v -> pool_options p !! k = Some (OptVal v))
       clusterConfig pools
  /\ events made.2 = events w
  /\ idCounter made.2 = idCounter w.
Proof.
  cbv zeta. rewrite initializeCluster_run.
  unfold with_calls. cbn [fst snd cluster_pools events idCounter].
  rewrite new_calls_app, length_map, map_map. repeat split.
  induction clusterConfig as [|entry rest IH]; cbn [map]; constructor; [|exact IH].
  intros k v Hk. now rewrite pool_for_lookup, Hk.
Qed.

(** X17. The connection settings never reach the pool library: the
    pools, the cluster and the outside calls are the same whatever the
    settings are, for [initializePool], for [initializeCluster] and for the
    constructor given two configurations that differ in their connection
    settings only. *)
Theorem pools_ignore_connection_settings
    (d : Dialect) (poolConfig : option Obj) (clusterConfig : list Obj)
    (settings settings' : Obj) (w : World)
    (cluster_ : option (list Obj)) (pool_ : option Obj) (useNull : Val) :
  initializePool poolConfig settings w = initializePool poolConfig settings' w
  /\ initializeCluster clusterConfig settings w = initializeCluster clusterConfig settings' w
  /\ let made := Client_new d (Config.mk (Some settings) cluster_ pool_ useNull) w in
     let made' := Client_new d (Config.mk (Some settings') cluster_ pool_ useNull) w in
     built made.1 = built made'.1 /\ made.2 = made'.2.
Proof.
  split; [reflexivity|]. split; [now rewrite !initializeCluster_run|].
  cbv zeta. unfold Client_new, initializeDriver. cbn [Config.connection Config.cluster
    Config.pool defined orb]. rewrite andb_true_r.
  destruct (truthy (driverName d)); [|easy].
  destruct (_driver d) as [e|loaded]; [easy|].
  destruct pool_ as [given|], cluster_ as [entries|]; cbn [defined andb]; run.
  - easy.
  - destruct (strict_ne_zero (get given "max")); [|easy].
    now rewrite !initializePool_some.
  - now rewrite !initializeCluster_run.
  - easy.
Qed.

(** ** Constructing a client, continued *)

(** X18. A client that the constructor returns never has both a pool
    and a cluster; it keeps the configuration it was given; its value for
    undefined bindings is [null] exactly when [useNullAsDefault] is truthy,
    and the raw expression [DEFAULT] otherwise; and it has a pool or a
    cluster only if its dialect names a driver. *)
Theorem Client_new_invariants
    (d : Dialect) (config_ : Config.t) (w w' : World) (client : Client) :
  Client_new d config_ w = (Constructed client, w') ->
  (pool client = None \/ cluster client = None)
  /\ config client = config_
  /\ valueForUndefined client
     = (if truthy (Config.useNullAsDefault config_) then VNull else VRaw "DEFAULT")
  /\ (truthy (driverName d) = false -> pool client = None /\ cluster client = None).
Proof.
  unfold Client_new, initializeDriver, valueForUndefined_of.
  destruct (truthy (driverName d)); cbn [andb].
  2: { intros [= <- _]. cbn. auto. }
  destruct (defined (Config.connection config_) || defined (Config.cluster config_)).
  2: { intros [= <- _]. cbn. auto. }
  destruct (_driver d) as [e|loaded]; [discriminate|].
  destruct (Config.pool config_) as [given|], (Config.cluster config_) as [entries|];
    cbn [defined andb]; try discriminate; run.
  - destruct (strict_ne_zero (get given "max")).
    + rewrite initializePool_some. intros [= <- _]. cbn. repeat split; auto; try discriminate.
    + intros [= <- _]. cbn. repeat split; auto; try discriminate.
  - rewrite initializeCluster_run. intros [= <- _]. cbn. repeat split; auto; try discriminate.
  - intros [= <- _]. cbn. repeat split; auto; try discriminate.
Qed.

Lemma Client_new_invariants_witness :
  Client_new failing_dialect pooled_config fresh_world
  = (Constructed pooled_client,
     with_calls fresh_world [Call_new_Pool (pool_options (pool_for {[ "max" := VNum 5 ]}))])
  /\ (pool pooled_client = None \/ cluster pooled_client = None)
  /\ valueForUndefined pooled_client = VRaw "DEFAULT".
Proof.
  assert (Hrun :
    Client_new failing_dialect pooled_config fresh_world
    = (Constructed pooled_client,
       with_calls fresh_world
         [Call_new_Pool (pool_options (pool_for {[ "max" := VNum 5 ]}))]))
    by reflexivity.
  pose proof (Client_new_invariants failing_dialect pooled_config fresh_world _
                pooled_client Hrun) as (Hone & _ & Hvalue & _).
  split; [exact Hrun|]. split; [exact Hone | exact Hvalue].
Defined.

(** X19. Without a driver name, or with neither connection settings nor
    a cluster, the constructor initializes nothing: the driver is not
    loaded, so a driver that cannot be loaded goes unnoticed, no pool is
    built even from a [pool] configuration, and no outside call is made. *)
Theorem Client_new_inert (d : Dialect) (config_ : Config.t) (w : World) :
  truthy (driverName d) = false
  \/ (Config.connection config_ = None /\ Config.cluster config_ = None) ->
  Client_new d config_ w
  = (Constructed (mkClient config_ VUndefined None None
                    (if truthy (Config.useNullAsDefault config_) then VNull
                     else VRaw "DEFAULT")), w).
Proof.
  intros [Hname | [Hconnection Hcluster]]; unfold Client_new.
  - now rewrite Hname.
  - rewrite Hconnection, Hcluster. cbn [defined orb]. now rewrite andb_false_r.
Qed.

Lemma Client_new_inert_witness :
  (Config.connection pool_only_config = None /\ Config.cluster pool_only_config = None)
  /\ Client_new failing_dialect pool_only_config fresh_world
     = (Constructed (mkClient pool_only_config VUndefined None None (VRaw "DEFAULT")),
        fresh_world).
Proof.
  split; [split; reflexivity|].
  exact (Client_new_inert failing_dialect pool_only_config fresh_world
           (or_intror (conj eq_refl eq_refl))).
Defined.

(** X20. With a driver that loads, a configuration that has a cluster
    and no [pool] gives a client with the cluster that [initializeCluster]
    builds, one pool for each entry, and no pool of its own, whether or not
    it has connection settings. *)
Theorem Client_new_builds_cluster
    (d : Dialect) (config_ : Config.t) (w : World) (loaded : Val) (entries : list Obj) :
  truthy (driverName d) = true ->
  _driver d = inr loaded ->
  Config.cluster config_ = Some entries ->
  Config.pool config_ = None ->
  Client_new d config_ w
  = (Constructed (mkClient config_ loaded None (Some (mkCluster (map pool_for entries)))
                    (valueForUndefined_of config_)),
     with_calls w
       (map (fun entry => Call_new_Pool (pool_options (pool_for entry))) entries
        ++ [Call_new_Cluster (map pool_for entries)])).
Proof.
  intros Hname Hdriver Hcluster Hpool. unfold Client_new, initializeDriver.
  rewrite Hname, Hdriver, Hcluster, Hpool. cbn [defined andb orb].
  rewrite orb_true_r. run. now rewrite initializeCluster_run.
Qed.

Lemma Client_new_builds_cluster_witness :
  truthy (driverName failing_dialect) = true
  /\ Client_new failing_dialect cluster_config fresh_world
     = (Constructed cluster_client,
        with_calls fresh_world
          [Call_new_Pool (pool_options (pool_for endpoint));
           Call_new_Pool (pool_options (pool_for endpoint));
           Call_new_Cluster [pool_for endpoint; pool_for endpoint]]).
Proof.
  split; [reflexivity|].
  exact (Client_new_builds_cluster failing_dialect cluster_config fresh_world
           (VStr "driver") [endpoint; endpoint] eq_refl eq_refl eq_refl eq_refl).
Defined.

(** X21. A constructed client has a pool only if the dialect names a
    driver, the driver loaded, and the configuration has a [pool] whose
    [max] is not the number 0, no cluster, and connection settings; the
    pool is then the one built from that [pool] configuration. *)
Theorem Client_new_pool_only_if
    (d : Dialect) (config_ : Config.t) (w w' : World) (client : Client) (p : Pool) :
  Client_new d config_ w = (Constructed client, w') ->
  pool client = Some p ->
  truthy (driverName d) = true
  /\ _driver d = inr (driver client)
  /\ is_Some (Config.connection config_)
  /\ Config.cluster config_ = None
  /\ exists given,
       Config.pool config_ = Some given
       /\ get given "max" <> VNum 0
       /\ p = pool_for given.
Proof.
  unfold Client_new, initializeDriver.
  destruct (truthy (driverName d)); cbn [andb].
  2: { intros [= <- _]. discriminate. }
  destruct (Config.connection config_) as [settings|], (Config.cluster config_) as [entries|];
    cbn [defined orb].
  4: { intros [= <- _]. discriminate. }
  all: destruct (_driver d) as [e|loaded]; [discriminate|].
  all: destruct (Config.pool config_) as [given|]; cbn [defined andb]; try discriminate; run.
  - rewrite initializeCluster_run. intros [= <- _]. discriminate.
  - destruct (strict_ne_zero (get given "max")) eqn:Hmax.
    + rewrite initializePool_some. intros [= <- _] [= <-]. cbn [driver].
      repeat split; eauto. exists given. repeat split.
      intros Hzero. apply strict_ne_zero_false in Hzero. congruence.
    + intros [= <- _]. discriminate.
  - intros [= <- _]. discriminate.
  - rewrite initializeCluster_run. intros [= <- _]. discriminate.
Qed.

Lemma Client_new_pool_only_if_witness :
  pool pooled_client = Some (pool_for {[ "max" := VNum 5 ]})
  /\ Config.cluster pooled_config = None
  /\ exists given,
       Config.pool pooled_config = Some given
       /\ get given "max" <> VNum 0
       /\ pool_for {[ "max" := VNum 5 ]} = pool_for given.
Proof.
  assert (Hrun :
    Client_new failing_dialect pooled_config fresh_world
    = (Constructed pooled_client,
       with_calls fresh_world
         [Call_new_Pool (pool_options (pool_for {[ "max" := VNum 5 ]}))]))
    by reflexivity.
  pose proof (Client_new_pool_only_if failing_dialect pooled_config fresh_world _
                pooled_client (pool_for {[ "max" := VNum 5 ]}) Hrun eq_refl)
    as (_ & _ & _ & Hcluster & Hgiven).
  split; [reflexivity|]. split; [exact Hcluster | exact Hgiven].
Defined.

(** X22. A construction that fails leaves no pool behind: when the
    constructor throws, or ends the process because the driver does not
    load, no pool and no cluster has been created.  However it ends, the
    constructor emits no event and takes no identifier. *)
Theorem Client_new_fails_clean (d : Dialect) (config_ : Config.t) (w : World) :
  let made := Client_new d config_ w in
  events made.2 = events w
  /\ idCounter made.2 = idCounter w
  /\ match made.1 with
     | Constructed _ => True
     | ProcessExit _ | Throws _ =>
         (forall options, Call_new_Pool options ∉ new_calls w made.2)
         /\ (forall pools, Call_new_Cluster pools ∉ new_calls w made.2)
     end.
Proof.
  cbv zeta. unfold Client_new, initializeDriver, helpers_exit.
  assert (Hnone : (forall options, Call_new_Pool options ∉ new_calls w w)
                  /\ (forall pools, Call_new_Cluster pools ∉ new_calls w w)).
  { rewrite new_calls_same. split; intros ? Hin; inversion Hin. }
  destruct (truthy (driverName d) && _); [|now run].
  destruct (_driver d) as [e|loaded]; [now run|].
  destruct (defined (Config.pool config_) && defined (Config.cluster config_)); [now run|].
  run. destruct (Config.pool config_) as [given|].
  - destruct (strict_ne_zero (get given "max")).
    + rewrite initializePool_some.
      destruct (Config.cluster config_) as [entries|]; [|easy].
      now rewrite initializeCluster_run.
    + destruct (Config.cluster config_) as [entries|]; [|easy].
      now rewrite initializeCluster_run.
  - destruct (Config.cluster config_) as [entries|]; [|easy].
    now rewrite initializeCluster_run.
Qed.

(** ** Acquiring, destroying and releasing, continued *)

Lemma new_events_app (w : World) (added : list Event) (calls' : list Call) (n : nat) :
  new_events w (mkWorld (events w ++ added) calls' n) = added.
Proof. unfold new_events. cbn [events]. apply drop_app_length. Qed.

Lemma new_events_same_events (w : World) (calls' : list Call) (n : nat) :
  new_events w (mkWorld (events w) calls' n) = [].
Proof. unfold new_events. cbn [events]. apply drop_all. Qed.

Section AcquireMore.

Variable Pool_acquire : Pool -> Receiver -> list AcquireArg -> AcquireCall.
Variable acquire_otherwise : Client -> Val -> AcquireCall.
Variable Request_abort : Val -> Acquisition -> Acquisition.

Lemma run_acquire_events (ac : AcquireCall) (w : World) :
  let run := run_acquire ac w in
  new_events w run.2
  = match completed run.1 with
    | Resolved connection => [mkEvent "acquireConnection" [ArgDomain; ArgConn connection]]
    | _ => []
    end
  /\ calls run.2 = calls w /\ idCounter run.2 = idCounter w.
Proof.
  cbv zeta. unfold run_acquire, acquired. run.
  destruct (called_back ac) as [[e|connection]|]; cbn [fst snd completed calls idCounter].
  - split; [|easy]. destruct w. apply new_events_same_events.
  - split; [|easy]. apply new_events_app.
  - split; [|easy]. destruct w. apply new_events_same_events.
Qed.

(** X23. [acquireConnection] emits the [acquireConnection] event, with
    the connection, exactly when its promise resolves, and no other event;
    a rejected or a pending acquisition is silent.  It takes no
    identifier. *)
Theorem acquireConnection_announces_success
    (client : Client) (capability : Val) (w : World) :
  let run := acquireConnection Pool_acquire acquire_otherwise client capability w in
  new_events w run.2
  = match completed run.1 with
    | Resolved connection => [mkEvent "acquireConnection" [ArgDomain; ArgConn connection]]
    | _ => []
    end
  /\ idCounter run.2 = idCounter w.
Proof.
  cbv zeta. unfold acquireConnection.
  destruct (negb (defined (pool client)) && negb (defined (cluster client))).
  { run. cbn [fst snd completed]. destruct w. now rewrite new_events_same_events. }
  destruct (cluster client) as [c|].
  - destruct (pool client) as [p|].
    + run.
      pose proof (run_acquire_events
                   (Pool_acquire p ThisClient [ACapability capability; ACallback])
                   (mkWorld (events w)
                      (calls w ++ [Call_Pool_acquire ThisClient
                                     [ACapability capability; ACallback]])
                      (idCounter w))) as (Hevents & _ & Hcount).
      cbv zeta in Hevents. unfold new_events in *. cbn [events calls idCounter] in *.
      now rewrite Hevents, Hcount.
    + run. cbn [fst snd completed]. destruct w. now rewrite new_events_same_events.
  - pose proof (run_acquire_events (acquire_otherwise client capability) w)
      as (Hevents & _ & Hcount).
    cbv zeta in Hevents. now rewrite Hevents, Hcount.
Qed.

(** X24. On a client without a pool, with or without a cluster,
    [acquireConnection] rejects at once: it asks nothing of the pool
    library, there is no request, and calling [abort] on what it returns,
    any number of times, does nothing. *)
Theorem acquireConnection_without_pool
    (client : Client) (capability : Val) (w : World) (reasons : list Val) :
  pool client = None ->
  let run := acquireConnection Pool_acquire acquire_otherwise client capability w in
  (exists e, completed run.1 = Rejected e)
  /\ request run.1 = None
  /\ run.2 = w
  /\ aborts Request_abort reasons run.1 run.2 = run.
Proof.
  intros Hpool. cbv zeta.
  destruct (cluster client) as [c|] eqn:Hcluster.
  - rewrite (acquireConnection_cluster_only _ _ client capability w c Hcluster Hpool).
    cbn [fst snd completed request]. repeat split; [eauto|].
    now apply aborts_settled.
  - rewrite (acquireConnection_no_pool _ _ client capability w Hpool Hcluster).
    cbn [fst snd completed request]. repeat split; [eauto|].
    now apply aborts_settled.
Qed.

End AcquireMore.

Lemma acquireConnection_without_pool_witness :
  pool cluster_client = None
  /\ aborts sample_abort [VStr "timeout"; VStr "again"]
       (acquireConnection (fun _ _ _ => sample_acquire) (fun _ _ => sample_acquire)
          cluster_client VUndefined fresh_world).1
       (acquireConnection (fun _ _ _ => sample_acquire) (fun _ _ => sample_acquire)
          cluster_client VUndefined fresh_world).2
     = acquireConnection (fun _ _ _ => sample_acquire) (fun _ _ => sample_acquire)
         cluster_client VUndefined fresh_world.
Proof.
  split; [reflexivity|].
  exact (proj2 (proj2 (proj2 (acquireConnection_without_pool
                                (fun _ _ _ => sample_acquire) (fun _ _ => sample_acquire)
                                sample_abort cluster_client VUndefined fresh_world
                                [VStr "timeout"; VStr "again"] eq_refl)))).
Defined.

Section DestroyMore.

Variable end_calls_back : Receiver -> bool.

(** X25. Destroying twice is safe: once the promise of [destroy] has
    resolved, every later [destroy] of the client it leaves resolves at
    once and leaves the client as it is, without asking the pool library
    to end anything again, whatever that library would do. *)
Theorem destroy_again_is_immediate
    (client : Client) (callback : bool) (w : World)
    (end_calls_back' : Receiver -> bool) (callback' : bool) (w' : World) :
  let left := destroyed_client (destroy end_calls_back client callback w).1 in
  destroyed_promise (destroy end_calls_back client callback w).1 = Resolved tt ->
  destroy end_calls_back' left callback' w'
  = (mkDestroyed left (Resolved tt) (if callback' then None else Some (Resolved tt)),
     with_calls w' (if callback' then [Call_callback] else [])).
Proof.
  cbv zeta. intros Hresolved.
  pose proof (destroy_run end_calls_back client callback w) as Hrun. cbv zeta in Hrun.
  set (left := destroyed_client (destroy end_calls_back client callback w).1) in *.
  assert (pool_or_cluster left = None) as Hnone.
  { apply pool_or_cluster_None.
    destruct (pool_or_cluster client) as [backend|] eqn:Hbackend.
    - destruct (end_calls_back backend).
      + destruct Hrun as (_ & ? & ?). now split.
      + destruct Hrun as [Hpending _]. congruence.
    - destruct Hrun as [_ Hsame]. rewrite Hsame. now apply pool_or_cluster_None. }
  unfold destroy. run. rewrite Hnone.
  destruct callback'; cbn; [reflexivity|].
  unfold with_calls. rewrite app_nil_r. now destruct w'.
Qed.

(** X26. The callback style and the promise style of [destroy] do the
    same to the client and end with the same promise.  They differ in what
    is returned, nothing with a callback and the promise without, and in
    the call of the callback, which is made when the promise has resolved
    and not before. *)
Theorem destroy_styles_agree (client : Client) (w : World) :
  let with_callback := destroy end_calls_back client true w in
  let with_promise := destroy end_calls_back client false w in
  destroyed_client with_callback.1 = destroyed_client with_promise.1
  /\ destroyed_promise with_callback.1 = destroyed_promise with_promise.1
  /\ destroyed_returned with_callback.1 = None
  /\ destroyed_returned with_promise.1 = Some (destroyed_promise with_promise.1)
  /\ new_calls w with_callback.2
     = (new_calls w with_promise.2
        ++ match destroyed_promise with_promise.1 with
           | Pending => []
           | _ => [Call_callback]
           end)%list.
Proof.
  cbv zeta. unfold destroy. run.
  destruct (pool_or_cluster client) as [backend|].
  - destruct (end_calls_back backend); cbn; repeat split;
      rewrite ?new_calls_app; try reflexivity.
    rewrite <- app_assoc. apply new_calls_app.
  - cbn. repeat split. destruct w. rewrite new_calls_same. apply new_calls_app.
Qed.

(** X27. A client with a pool or a cluster has [end] called on it once,
    on the pool when there is one and on the cluster otherwise.  If the
    pool library never calls back, the promise of [destroy] stays pending,
    the client keeps its pool and its cluster, and the callback given to
    [destroy] is never called. *)
Theorem destroy_ends_once
    (client : Client) (callback : bool) (w : World) (backend : Receiver) :
  pool_or_cluster client = Some backend ->
  let run := destroy end_calls_back client callback w in
  new_calls w run.2
  = Call_end backend :: (if callback && end_calls_back backend then [Call_callback] else [])
  /\ events run.2 = events w
  /\ (forall p, pool client = Some p -> backend = ThisPool p)
  /\ (end_calls_back backend = false ->
        destroyed_promise run.1 = Pending /\ destroyed_client run.1 = client).
Proof.
  intros Hbackend. cbv zeta. unfold destroy. run. rewrite Hbackend.
  split; [|split; [|split]].
  - destruct (end_calls_back backend), callback; cbn;
      rewrite <- ?app_assoc; apply new_calls_app.
  - now destruct (end_calls_back backend), callback.
  - intros p Hp. unfold pool_or_cluster in Hbackend. rewrite Hp in Hbackend. congruence.
  - intros ->. now destruct callback.
Qed.

End DestroyMore.

Lemma destroy_again_is_immediate_witness :
  destroyed_promise (destroy sample_end pooled_client false fresh_world).1 = Resolved tt
  /\ destroy stuck_end (destroyed_client (destroy sample_end pooled_client false fresh_world).1)
       true fresh_world
     = (mkDestroyed (destroyed_client (destroy sample_end pooled_client false fresh_world).1)
          (Resolved tt) None,
        with_calls fresh_world [Call_callback]).
Proof.
  split; [reflexivity|].
  exact (destroy_again_is_immediate sample_end pooled_client false fresh_world
           stuck_end true fresh_world eq_refl).
Defined.

Lemma destroy_ends_once_witness :
  pool_or_cluster cluster_client
  = Some (ThisCluster (mkCluster [pool_for endpoint; pool_for endpoint]))
  /\ new_calls fresh_world (destroy stuck_end cluster_client true fresh_world).2
     = [Call_end (ThisCluster (mkCluster [pool_for endpoint; pool_for endpoint]))]
  /\ destroyed_promise (destroy stuck_end cluster_client true fresh_world).1 = Pending
  /\ destroyed_client (destroy stuck_end cluster_client true fresh_world).1 = cluster_client.
Proof.
  pose proof (destroy_ends_once stuck_end cluster_client true fresh_world
                (ThisCluster (mkCluster [pool_for endpoint; pool_for endpoint])) eq_refl)
    as (Hcalls & _ & _ & Hstuck).
  split; [reflexivity|]. split; [exact Hcalls|]. exact (Hstuck eq_refl).
Defined.

Section ReleaseProperties.

Variable Pool_release : Receiver -> Connection -> option Error.


(** X29. After a [destroy] whose promise has resolved, releasing a
    connection fails: the event is still emitted, nothing is handed back,
    and the promise rejects with a [TypeError], because there is neither a
    pool nor a cluster left to read [release] from. *)
Theorem releaseConnection_after_destroy
    (end_calls_back : Receiver -> bool) (client : Client) (callback : bool) (w : World)
    (connection : Connection) (w' : World) :
  let left := destroyed_client (destroy end_calls_back client callback w).1 in
  destroyed_promise (destroy end_calls_back client callback w).1 = Resolved tt ->
  releaseConnection Pool_release left connection w'
  = (mkReleased
       (Rejected (mkError "TypeError" "Cannot read property 'release' of undefined")) None,
     with_events w' [mkEvent "releaseConnection" [ArgDomain; ArgConn connection]]).
Proof.
  cbv zeta. intros Hresolved.
  pose proof (destroy_run end_calls_back client callback w) as Hrun. cbv zeta in Hrun.
  set (left := destroyed_client (destroy end_calls_back client callback w).1) in *.
  assert (pool_or_cluster left = None) as Hnone.
  { apply pool_or_cluster_None.
    destruct (pool_or_cluster client) as [backend|] eqn:Hbackend.
    - destruct (end_calls_back backend).
      + destruct Hrun as (_ & ? & ?). now split.
      + destruct Hrun as [Hpending _]. congruence.
    - destruct Hrun as [_ Hsame]. rewrite Hsame. now apply pool_or_cluster_None. }
  unfold releaseConnection. run. now rewrite Hnone.
Qed.

End ReleaseProperties.


Lemma releaseConnection_after_destroy_witness :
  destroyed_promise (destroy sample_end pooled_client false fresh_world).1 = Resolved tt
  /\ (releaseConnection sample_release
        (destroyed_client (destroy sample_end pooled_client false fresh_world).1)
        sample_connection fresh_world).1
     = mkReleased
         (Rejected (mkError "TypeError" "Cannot read property 'release' of undefined")) None.
Proof.
  split; [reflexivity|].
  exact (f_equal fst (releaseConnection_after_destroy sample_release sample_end pooled_client
                        false fresh_world sample_connection fresh_world eq_refl)).
Defined.
